(** * Results-Cal-System: the result-sheet parser and the GPA aggregator

    A shallow embedding of [parseResultText] and of the body of the
    [/api/calculate-final] handler of [server.js], with the properties
    of the specification stated over it.

    Conventions of the embedding.
    - A JavaScript Number is an IEEE 754 binary64 value: Rocq's primitive
      [float], whose [+], [*], [/] and comparisons round and compare as
      JavaScript's do.
    - Text is a [string] of 7-bit ASCII characters, the alphabet the
      recognizer is configured with (digits, capitals, [/.+-|] and space);
      the character classes below are those of JavaScript on that range.
    - A thrown [Error] is a value of [ParseError]; a [TypeError] raised
      inside the aggregation handler is [None].
    - The document store is the list of its documents in insertion order.
      The store library casts an update to [resultSchema] before it
      writes: [yearGPA] is declared a Number there, the handler hands it
      an object, and [updateMany] rejects with a CastError. *)

From Stdlib Require Import ZArith List String Ascii Bool Lia Floats Permutation Sorted.
Import ListNotations.
Set Warnings "-inexact-float".

Local Open Scope string_scope.
Local Open Scope list_scope.

(** ** JavaScript primitives used by the server *)

Module JS.

(** White space as [String.prototype.trim] and the regular expression
    class [\s] see it: TAB, LF, VT, FF, CR and SPACE. *)
Definition isSpace (c : ascii) : bool :=
  existsb (Ascii.eqb c) ["009"; "010"; "011"; "012"; "013"; " "]%char.

Definition isEmpty (s : string) : bool :=
  match s with
  | EmptyString => true
  | String _ _ => false
  end.

Fixpoint trimStart (s : string) : string :=
  match s with
  | EmptyString => EmptyString
  | String c r => if isSpace c then trimStart r else s
  end.

Fixpoint trimEnd (s : string) : string :=
  match s with
  | EmptyString => EmptyString
  | String c r =>
      match trimEnd r with
      | EmptyString => if isSpace c then EmptyString else String c EmptyString
      | r' => String c r'
      end
  end.

(** [s.trim()] *)
Definition trim (s : string) : string := trimEnd (trimStart s).

(** Adds a character in front of the first piece of a split. *)
Definition pushChar (c : ascii) (pieces : list string) : list string :=
  match pieces with
  | [] => [String c EmptyString]
  | h :: t => String c h :: t
  end.

(** [s.split(sep)] for a one-character separator. *)
Fixpoint split (sep : ascii) (s : string) : list string :=
  match s with
  | EmptyString => [EmptyString]
  | String c r =>
      if Ascii.eqb c sep then EmptyString :: split sep r
      else pushChar c (split sep r)
  end.

(** [s.replace(/c/g, '')] for a literal character [c]. *)
Fixpoint removeAll (x : ascii) (s : string) : string :=
  match s with
  | EmptyString => EmptyString
  | String c r => if Ascii.eqb c x then removeAll x r else String c (removeAll x r)
  end.

(** [s.startsWith(c)] for a one-character prefix. *)
Definition startsWith (x : ascii) (s : string) : bool :=
  match s with
  | EmptyString => false
  | String c _ => Ascii.eqb c x
  end.

Definition headIsSpace (s : string) : bool :=
  match s with
  | EmptyString => false
  | String c _ => isSpace c
  end.

(** [s.split(/\s{2,}/)]: the separators are the maximal runs of two or
    more white-space characters (the quantifier is greedy); a lone
    white-space character stays inside its piece.  [inGap] says that the
    scan is inside a separator. *)
Fixpoint splitGapsFrom (inGap : bool) (s : string) : list string :=
  match s with
  | EmptyString => [EmptyString]
  | String c r =>
      if isSpace c then
        if inGap then splitGapsFrom true r
        else if headIsSpace r then EmptyString :: splitGapsFrom true r
        else pushChar c (splitGapsFrom false r)
      else pushChar c (splitGapsFrom false r)
  end.

Definition splitGaps (s : string) : list string := splitGapsFrom false s.

Definition isLower (c : ascii) : bool :=
  (97 <=? nat_of_ascii c)%nat && (nat_of_ascii c <=? 122)%nat.

Definition upperChar (c : ascii) : ascii :=
  if isLower c then ascii_of_nat (nat_of_ascii c - 32) else c.

(** [s.toUpperCase()] *)
Fixpoint toUpperCase (s : string) : string :=
  match s with
  | EmptyString => EmptyString
  | String c r => String (upperChar c) (toUpperCase r)
  end.

(** [parseInt(s[i])]: the indexed character when it is a decimal digit;
    [None] is NaN (no character at that index, or not a digit). *)
Definition parseIntAt (s : string) (i : nat) : option Z :=
  match String.get i s with
  | Some c =>
      let n := nat_of_ascii c in
      if (48 <=? n)%nat && (n <=? 57)%nat then Some (Z.of_nat (n - 48)) else None
  | None => None
  end.

(** An integer as a Number (exact for the small counts used here). *)
Definition number (z : Z) : float :=
  if (z <? 0)%Z then PrimFloat.opp (PrimFloat.of_uint63 (Uint63.of_Z (- z)))
  else PrimFloat.of_uint63 (Uint63.of_Z z).

(** The integer nearest to [100 * m * 2^e], ties upward. *)
Definition hundredths (m : positive) (e : Z) : Z :=
  if (0 <=? e)%Z then Z.shiftl (100 * Z.pos m) e
  else Z.shiftr (200 * Z.pos m + Z.shiftl 1 (- e)) (1 - e).

Definition intSF (s : bool) (n : Z) : spec_float :=
  match n with
  | Z.pos p => S754_finite s p 0
  | _ => S754_zero s
  end.

(** [parseFloat(x.toFixed(2))].  [toFixed] takes the integer [n] with
    [n / 100] nearest to the exact value of [x] (the larger one on a tie,
    sign apart) and prints it with two decimals; [parseFloat] reads the
    Number nearest to that decimal.  From 1e21 on [toFixed] prints the
    Number itself. *)
Definition toFixed2 (x : float) : float :=
  match Prim2SF x with
  | S754_nan => PrimFloat.nan
  | S754_infinity _ => x
  | S754_zero _ => PrimFloat.zero
  | S754_finite s m e =>
      if PrimFloat.leb 1e21 (PrimFloat.abs x) then x
      else SF2Prim (SFdiv prec emax (intSF s (hundredths m e)) (S754_finite false 100 0))
  end.

(** [!v] for a Number [v]: zero and NaN are falsy. *)
Definition falsyNumber (x : float) : bool :=
  PrimFloat.is_zero x || PrimFloat.is_nan x.

(** The members every object literal inherits from [Object.prototype]. *)
Definition objectPrototype : list string :=
  ["constructor"; "__defineGetter__"; "__defineSetter__"; "hasOwnProperty";
   "__lookupGetter__"; "__lookupSetter__"; "isPrototypeOf";
   "propertyIsEnumerable"; "toString"; "valueOf"; "__proto__";
   "toLocaleString"].

Definition inherited (k : string) : bool := existsb (String.eqb k) objectPrototype.

(** Own properties of an object, in insertion order. *)
Fixpoint lookupOwn {V : Type} (k : string) (o : list (string * V)) : option V :=
  match o with
  | [] => None
  | (k', v) :: t => if String.eqb k k' then Some v else lookupOwn k t
  end.

(** What a property read [o[k]] yields on a table of Numbers: the own
    Number, an inherited member (a function or [Object.prototype]
    itself), or [undefined]. *)
Inductive Member : Type :=
| Undefined
| Num (x : float)
| Inherited.

Definition member (k : string) (o : list (string * float)) : Member :=
  match lookupOwn k o with
  | Some x => Num x
  | None => if inherited k then Inherited else Undefined
  end.

(** [!v] *)
Definition falsy (v : Member) : bool :=
  match v with
  | Undefined => true
  | Num x => falsyNumber x
  | Inherited => false
  end.

(** The Number a member is converted to by [*]. *)
Definition toNumber (v : Member) : float :=
  match v with
  | Num x => x
  | _ => PrimFloat.nan
  end.

(** A property key that is an array index is enumerated before the
    others, in ascending order: the canonical decimal numerals below
    [2^32 - 1]. *)
Definition maxIndex : N := 4294967295.

Fixpoint digitsValue (acc : N) (s : string) : option N :=
  match s with
  | EmptyString => Some acc
  | String c r =>
      let n := nat_of_ascii c in
      if (48 <=? n)%nat && (n <=? 57)%nat
      then digitsValue (10 * acc + N.of_nat (n - 48)) r
      else None
  end.

Definition stringIndex (k : string) : option N :=
  match k with
  | EmptyString => None
  | String "0" EmptyString => Some 0%N
  | String "0" _ => None
  | _ =>
      match digitsValue 0 k with
      | Some n => if (n <? maxIndex)%N then Some n else None
      | None => None
      end
  end.

(** The key of an integral Number. *)
Definition numberIndex (y : Z) : option N :=
  if (0 <=? y)%Z && (y <? Z.of_N maxIndex)%Z then Some (Z.to_N y) else None.

Section Entries.

Context {K V : Type} (index : K -> option N).

Fixpoint insertIndexed (i : N) (e : K * V) (l : list (N * (K * V))) : list (N * (K * V)) :=
  match l with
  | [] => [(i, e)]
  | (j, e') :: t => if (i <? j)%N then (i, e) :: l else (j, e') :: insertIndexed i e t
  end.

Fixpoint indexedEntries (o : list (K * V)) : list (N * (K * V)) :=
  match o with
  | [] => []
  | e :: t =>
      match index (fst e) with
      | Some i => insertIndexed i e (indexedEntries t)
      | None => indexedEntries t
      end
  end.

Definition namedEntries (o : list (K * V)) : list (K * V) :=
  filter (fun e => match index (fst e) with Some _ => false | None => true end) o.

(** [Object.entries(o)] for own properties [o] given in insertion order. *)
Definition entries (o : list (K * V)) : list (K * V) :=
  map snd (indexedEntries o) ++ namedEntries o.

End Entries.

(** The same properties with every value transformed. *)
Definition mapValues {K V W : Type} (f : V -> W) (o : list (K * V)) : list (K * W) :=
  map (fun e => (fst e, f (snd e))) o.

End JS.

(** ** The tabular parser: [parseResultText] *)

Module Parser.

Import JS.

(** const gradePoints (server.js, lines 65-70) *)
Definition gradePoints : list (string * float) :=
  [("A+", 4.0); ("A", 3.7); ("A-", 3.3);
   ("B+", 3.0); ("B", 2.7); ("B-", 2.3);
   ("C+", 2.0); ("C", 1.7); ("C-", 1.3);
   ("F", 0.0)]%float.

Record Course : Type := {
  code : string;
  grade : string;
  creditHours : Z;
  qualityPoints : float
}.

(** The object pushed on [results].  [semester] and [year] are stored
    as they were handed in: the request's form fields, text. *)
Record SemesterResult : Type := {
  indexNo : string;
  name : string;
  semester : string;
  year : string;
  courses : list Course;
  semesterGPA : float
}.

Inductive ParseError : Type :=
| InsufficientData
| InvalidGrade (grade name : string).

(** The message of the thrown [Error]. *)
Definition message (e : ParseError) : string :=
  match e with
  | InsufficientData => "Insufficient data extracted from image"
  | InvalidGrade grade name => "Invalid grade '" ++ grade ++ "' for " ++ name
  end.

Inductive Outcome (A : Type) : Type :=
| Returns (a : A)
| Throws (e : ParseError).

Arguments Returns {A} a.
Arguments Throws {A} e.

(** One line after the pipes are stripped and the ends trimmed. *)
Definition cleanLine (line : string) : string := trim (removeAll "|" line).

(** The filter's predicate: [line && !line.startsWith('-')]. *)
Definition keepLine (line : string) : bool :=
  negb (isEmpty line) && negb (startsWith "-" line).

(** const lines (server.js, lines 109-111) *)
Definition lines (text : string) : list string :=
  filter keepLine (map cleanLine (split "010" text)).

(** [line.split(/\s{2,}/).filter(col => col.trim() !== '')] *)
Definition columnsOf (line : string) : list string :=
  filter (fun col => negb (isEmpty (trim col))) (splitGaps line).

Definition digit (j : nat) : string := String (ascii_of_nat (48 + j)) EmptyString.

(** The template [`CO${year}${semester}${j}${j}`]. *)
Definition fallbackCode (semester year : string) (j : nat) : string :=
  "CO" ++ year ++ semester ++ digit j ++ digit j.

(** [headers[j] || `CO...`] *)
Definition courseCodeAt (headers : list string) (semester year : string) (j : nat) : string :=
  match nth_error headers j with
  | Some h => if isEmpty h then fallbackCode semester year j else h
  | None => fallbackCode semester year j
  end.

(** [columns[j].trim().toUpperCase()] *)
Definition gradeAt (columns : list string) (j : nat) : string :=
  toUpperCase (trim (nth j columns EmptyString)).

(** [parseInt(courseCode[3]) || 2] *)
Definition creditHoursOf (courseCode : string) : Z :=
  match parseIntAt courseCode 3 with
  | Some d => if (d =? 0)%Z then 2%Z else d
  | None => 2%Z
  end.

Record RowState : Type := {
  rowCourses : list Course;
  totalQualityPoints : float;
  totalCreditHours : float
}.

(** The object pushed on [courses] for column [j]. *)
Definition courseAt (headers columns : list string) (semester year : string) (j : nat) : Course :=
  let courseCode := courseCodeAt headers semester year j in
  let grade := gradeAt columns j in
  let creditHours := creditHoursOf courseCode in
  {| code := courseCode; grade := grade; creditHours := creditHours;
     qualityPoints := (toNumber (member grade gradePoints) * number creditHours)%float |}.

(** The body of the loop over [j] (server.js, lines 130-150). *)
Definition courseStep (headers columns : list string) (semester year name : string)
    (j : nat) (st : RowState) : Outcome RowState :=
  let grade := gradeAt columns j in
  if falsy (member grade gradePoints) then Throws (InvalidGrade grade name)
  else
    let course := courseAt headers columns semester year j in
    Returns {| rowCourses := rowCourses st ++ [course];
               totalQualityPoints := (totalQualityPoints st + qualityPoints course)%float;
               totalCreditHours := (totalCreditHours st + number (creditHours course))%float |}.

(** [for (let j = from; ...; j++)], [n] iterations. *)
Fixpoint courseLoop (headers columns : list string) (semester year name : string)
    (j n : nat) (st : RowState) {struct n} : Outcome RowState :=
  match n with
  | O => Returns st
  | S n' =>
      match courseStep headers columns semester year name j st with
      | Throws e => Throws e
      | Returns st' => courseLoop headers columns semester year name (S j) n' st'
      end
  end.

(** The body of the loop over the data lines (server.js, lines
    120-161): [None] when the line has fewer than seven columns and
    nothing is pushed. *)
Definition parseRow (headers : list string) (semester year : string) (line : string)
    : Outcome (option SemesterResult) :=
  let columns := columnsOf line in
  if (7 <=? List.length columns)%nat then
    let indexNo := trim (nth 0 columns EmptyString) in
    let name := trim (nth 1 columns EmptyString) in
    match courseLoop headers columns semester year name 2 5
            {| rowCourses := []; totalQualityPoints := 0; totalCreditHours := 0 |} with
    | Throws e => Throws e
    | Returns st =>
        Returns (Some {| indexNo := indexNo; name := name;
                         semester := semester; year := year;
                         courses := rowCourses st;
                         semesterGPA := (totalQualityPoints st / totalCreditHours st)%float |})
    end
  else Returns None.

Fixpoint rowLoop (headers : list string) (semester year : string)
    (rest : list string) (results : list SemesterResult) : Outcome (list SemesterResult) :=
  match rest with
  | [] => Returns results
  | line :: rest' =>
      match parseRow headers semester year line with
      | Throws e => Throws e
      | Returns None => rowLoop headers semester year rest' results
      | Returns (Some r) => rowLoop headers semester year rest' (results ++ [r])
      end
  end.

(** const parseResultText (server.js, lines 108-164).  [semester] and
    [year] are the texts the template literal interpolates: the form
    fields of the upload request, or the decimal numerals of integers. *)
Definition parseResultText (text semester year : string) : Outcome (list SemesterResult) :=
  let lines := lines text in
  if (List.length lines <? 2)%nat then Throws InsufficientData
  else
    let headers := columnsOf (nth 0 lines EmptyString) in
    rowLoop headers semester year (tl lines) [].

(** The tokens of the fixed grade table. *)
Definition gradeTokens : list string := map fst gradePoints.

(** Is the token one of the table's? *)
Definition inTable (g : string) : bool := existsb (String.eqb g) gradeTokens.

(** The semester GPA as the specification words it, over the grade
    point and the credit hours of each course: the sum of the products
    divided by the sum of the credit hours. *)
Definition weightedGPA (graded : list (float * Z)) : float :=
  (fold_left (fun sum c => sum + fst c * number (snd c)) graded 0 /
   fold_left (fun sum c => sum + number (snd c)) graded 0)%float.

(** A separator line as the specification words it: dashes only. *)
Fixpoint pureDashes (line : string) : bool :=
  match line with
  | EmptyString => true
  | String c r => Ascii.eqb c "-" && pureDashes r
  end.

Fixpoint noLower (s : string) : bool :=
  match s with
  | EmptyString => true
  | String c r => negb (isLower c) && noLower r
  end.

(** The value of a character that is one of the digits 1 to 9. *)
Definition positiveDigit (c : ascii) : option Z :=
  let n := nat_of_ascii c in
  if (49 <=? n)%nat && (n <=? 57)%nat then Some (Z.of_nat (n - 48)) else None.

(** The value of any decimal digit. *)
Definition decimalDigit (c : ascii) : option Z :=
  let n := nat_of_ascii c in
  if (48 <=? n)%nat && (n <=? 57)%nat then Some (Z.of_nat (n - 48)) else None.

(** Left-to-right sum of Numbers from 0, as [+=] accumulates it. *)
Definition total (xs : list float) : float :=
  fold_left (fun sum x => sum + x)%float xs 0%float.

Definition newline : string := String "010" EmptyString.

(** Does the character occur in the string? *)
Fixpoint contains (x : ascii) (s : string) : bool :=
  match s with
  | EmptyString => false
  | String c r => Ascii.eqb c x || contains x r
  end.

(** The course code the specification describes for column [j]: the
    header token at that index, or the synthesized code. *)
Definition codeOfColumn (headers : list string) (semester year : string) (j : nat) : string :=
  match nth_error headers j with
  | Some h => h
  | None => fallbackCode semester year j
  end.

(** The credit hours read off a course code: the fourth character when
    it is one of the digits 1 to 9, and 2 otherwise. *)
Definition hoursOfCode (courseCode : string) : Z :=
  match String.get 3 courseCode with
  | Some c =>
      match positiveDigit c with
      | Some d => d
      | None => 2%Z
      end
  | None => 2%Z
  end.

(** What [parseRow] pushes for a line it accepts. *)
Definition builtFrom (headers : list string) (semester year : string)
    (line : string) (r : SemesterResult) : Prop :=
  let columns := columnsOf line in
  7 <= List.length columns /\
  indexNo r = trim (nth 0 columns EmptyString) /\
  name r = trim (nth 1 columns EmptyString) /\
  Parser.semester r = semester /\
  Parser.year r = year /\
  courses r = map (courseAt headers columns semester year) (seq 2 5) /\
  semesterGPA r =
    (total (map qualityPoints (courses r)) /
     total (map (fun c => number (creditHours c)) (courses r)))%float /\
  (forall i, 2 <= i < 7 -> falsy (member (gradeAt columns i) gradePoints) = false).

End Parser.

(** ** The GPA aggregator: the handler of [/api/calculate-final] *)

Module Aggregator.

Import JS.

(** The three fields the handler hands to [updateMany]. *)
Record Aggregate : Type := {
  yearGPA : list (Z * float);
  finalGPA : float;
  finalClass : string
}.

(** A stored document of [resultSchema].  [year] and [semester] are the
    integral Numbers of the schema; [aggregate] holds the fields
    [yearGPA], [finalGPA] and [finalClass], which are written together,
    and is [None] until an update has written them. *)
Record Result : Type := {
  indexNo : string;
  name : string;
  semester : Z;
  year : Z;
  courses : list Parser.Course;
  semesterGPA : float;
  aggregate : option Aggregate
}.

(** A value of the [students] object. *)
Record Student : Type := {
  studentName : string;
  results : list Result
}.

(** [o[k].results.push(r)] on the own property [k]. *)
Fixpoint pushResult (k : string) (r : Result) (students : list (string * Student))
    : list (string * Student) :=
  match students with
  | [] => []
  | (k', st) :: t =>
      if String.eqb k k'
      then (k', {| studentName := studentName st; results := results st ++ [r] |}) :: t
      else (k', st) :: pushResult k r t
  end.

(** [students[k]] is truthy for an own property (an object) and for an
    inherited member. *)
Definition hasMember (k : string) (students : list (string * Student)) : bool :=
  match lookupOwn k students with
  | Some _ => true
  | None => inherited k
  end.

(** The body of the first [forEach] (server.js, lines 213-221).
    Reading [.results] off an inherited member gives [undefined], and
    [push] on it throws. *)
Definition groupStep (students : list (string * Student)) (result : Result)
    : option (list (string * Student)) :=
  let k := indexNo result in
  let students' :=
    if hasMember k students then students
    else students ++ [(k, {| studentName := name result; results := [] |})] in
  match lookupOwn k students' with
  | Some _ => Some (pushResult k result students')
  | None => None
  end.

Fixpoint groupLoop (allResults : list Result) (students : list (string * Student))
    : option (list (string * Student)) :=
  match allResults with
  | [] => Some students
  | result :: rest =>
      match groupStep students result with
      | Some students' => groupLoop rest students'
      | None => None
      end
  end.

(** [resultsByYear[y].push(r)] on the own property [y]. *)
Fixpoint pushYear (y : Z) (r : Result) (byYear : list (Z * list Result))
    : list (Z * list Result) :=
  match byYear with
  | [] => []
  | (y', rs) :: t =>
      if (y =? y')%Z then (y', rs ++ [r]) :: t else (y', rs) :: pushYear y r t
  end.

Definition hasYear (y : Z) (byYear : list (Z * list Result)) : bool :=
  existsb (fun e => (y =? fst e)%Z) byYear.

(** The body of the second [forEach] (server.js, lines 228-233). *)
Definition yearStep (byYear : list (Z * list Result)) (result : Result)
    : list (Z * list Result) :=
  let y := year result in
  pushYear y result (if hasYear y byYear then byYear else byYear ++ [(y, [])]).

(** const resultsByYear, once filled. *)
Definition resultsByYear (rs : list Result) : list (Z * list Result) :=
  fold_left yearStep rs [].

(** [results.reduce((sum, r) => sum + r.semesterGPA, 0) / results.length] *)
Definition yearMean (rs : list Result) : float :=
  (fold_left (fun sum r => sum + semesterGPA r) rs 0
   / number (Z.of_nat (List.length rs)))%float.

Record YearLoop : Type := {
  yearGPAs : list (Z * float);
  totalYearGPA : float;
  yearCount : float
}.

(** The body of the loop over [Object.entries(resultsByYear)]
    (server.js, lines 240-245). *)
Definition gpaStep (st : YearLoop) (e : Z * list Result) : YearLoop :=
  let yearGPA := yearMean (snd e) in
  {| yearGPAs := yearGPAs st ++ [(fst e, toFixed2 yearGPA)];
     totalYearGPA := (totalYearGPA st + yearGPA)%float;
     yearCount := (yearCount st + 1)%float |}.

(** The chain of comparisons that sets [finalClass] (server.js, lines
    249-253). *)
Definition classify (finalGPA : float) : string :=
  if PrimFloat.leb 3.7 finalGPA then "First Class"
  else if PrimFloat.leb 3.3 finalGPA then "Second Upper Class"
  else if PrimFloat.leb 3.0 finalGPA then "Second Lower Class"
  else "Just Pass".

(** The body of the loop over the students, up to the update. *)
Definition studentAggregate (rs : list Result) : Aggregate :=
  let st := fold_left gpaStep (entries numberIndex (resultsByYear rs))
              {| yearGPAs := []; totalYearGPA := 0; yearCount := 0 |} in
  let finalGPA := toFixed2 (totalYearGPA st / yearCount st)%float in
  {| yearGPA := yearGPAs st; finalGPA := finalGPA; finalClass := classify finalGPA |}.

(** A document with the three aggregate fields overwritten. *)
Definition setAggregate (a : Aggregate) (r : Result) : Result :=
  {| indexNo := indexNo r; name := name r; semester := semester r;
     year := year r; courses := courses r;
     semesterGPA := semesterGPA r; aggregate := Some a |}.

(** The type a schema declares for a path. *)
Inductive PathType : Type :=
| NumberPath
| MixedPath.

(** [resultSchema] declares [yearGPA: Number] (server.js, line 36). *)
Definition yearGPAPath : PathType := NumberPath.

(** The store library casts an update to the schema before it writes
    anything: an object handed to a path declared a Number is refused
    with a CastError; a path that takes any value keeps the object. *)
Definition castObject (path : PathType) (o : list (Z * float)) : option (list (Z * float)) :=
  match path with
  | NumberPath => None
  | MixedPath => Some o
  end.

(** [Result.updateMany({ indexNo }, { yearGPA: yearGPAs, finalGPA, finalClass })]
    (server.js, lines 256-263).  [None] is the rejection with a
    CastError, which comes before any document is written. *)
Definition updateMany (k : string) (a : Aggregate) (store : list Result)
    : option (list Result) :=
  match castObject yearGPAPath (yearGPA a) with
  | Some yearGPAs =>
      let update := {| yearGPA := yearGPAs; finalGPA := finalGPA a; finalClass := finalClass a |} in
      Some (map (fun r => if String.eqb (indexNo r) k then setAggregate update r else r) store)
  | None => None
  end.

(** What the handler catches: the TypeError of [push] on [undefined]
    in the grouping, or the CastError of an update. *)
Inductive RunError : Type :=
| PushOnUndefined
| YearGPACast.

(** The answers of [/api/calculate-final]: 200, or 500 with the error. *)
Inductive RunResponse : Type :=
| Calculated
| CalculationFailed (e : RunError).

(** The loop over [Object.entries(students)] (server.js, lines
    224-264): the aggregate of each student is computed from the
    documents read at the start and handed to [updateMany]; the first
    rejection ends the handler. *)
Fixpoint updateLoop (students : list (string * Student)) (store : list Result)
    : RunResponse * list Result :=
  match students with
  | [] => (Calculated, store)
  | e :: rest =>
      match updateMany (fst e) (studentAggregate (results (snd e))) store with
      | Some store' => updateLoop rest store'
      | None => (CalculationFailed YearGPACast, store)
      end
  end.

(** The handler (server.js, lines 207-264) on the documents
    [Result.find()] returns: its answer and the store it leaves. *)
Definition recalculateAll (store : list Result) : RunResponse * list Result :=
  match groupLoop store [] with
  | Some students => updateLoop (entries stringIndex students) store
  | None => (CalculationFailed PushOnUndefined, store)
  end.

(** What a run computes for the student [s]. *)
Definition aggregateOf (store : list Result) (s : string) : option Aggregate :=
  match groupLoop store [] with
  | Some students =>
      match lookupOwn s students with
      | Some st => Some (studentAggregate (results st))
      | None => None
      end
  | None => None
  end.

(** A mean as the handler forms it: the running sum over the running
    count, both started at 0. *)
Definition mean (xs : list float) : float :=
  (fold_left (fun sum x => sum + x) xs 0 / fold_left (fun count _ => count + 1) xs 0)%float.

(** The per-year means before rounding, in the order of the loop. *)
Definition yearMeans (rs : list Result) : list float :=
  map (fun e => yearMean (snd e)) (entries numberIndex (resultsByYear rs)).

(** The final average as the specification words it: the mean of the
    already rounded per-year values, rounded again. *)
Definition finalGPA_of_rounded (rs : list Result) : float :=
  toFixed2 (mean (map toFixed2 (yearMeans rs))).

(** The documents of the student [s], in store order. *)
Definition recordsOf (s : string) (store : list Result) : list Result :=
  filter (fun r => String.eqb (indexNo r) s) store.

(** The fields of a document the aggregation reads besides [indexNo]. *)
Definition gpaPair (r : Result) : Z * float := (year r, semesterGPA r).

(** A document that carries a pair and nothing else. *)
Definition bare (p : Z * float) : Result :=
  {| indexNo := EmptyString; name := EmptyString; semester := 0; year := fst p;
     courses := []; semesterGPA := snd p; aggregate := None |}.

(** The fields of a document a run reads. *)
Definition readFields (r : Result) : string * Z * float :=
  (indexNo r, year r, semesterGPA r).

(** A document that carries those fields and nothing else. *)
Definition skeleton (t : string * Z * float) : Result :=
  {| indexNo := fst (fst t); name := EmptyString; semester := 0; year := snd (fst t);
     courses := []; semesterGPA := snd t; aggregate := None |}.

(** The group of a student after more of its documents were pushed. *)
Definition joinGroup (group : option (list Result)) (more : list Result) : option (list Result) :=
  match more with
  | [] => group
  | _ :: _ =>
      Some (match group with
            | Some rs => rs ++ more
            | None => more
            end)
  end.

Definition groupOf (s : string) (students : list (string * Student)) : option (list Result) :=
  option_map results (lookupOwn s students).

(** A student entry after one more document was pushed. *)
Definition pushed (r : Result) (st : Student) : Student :=
  {| studentName := studentName st; results := results st ++ [r] |}.

(** Own keys are distinct and never name an inherited member. *)
Definition keysOk (students : list (string * Student)) : Prop :=
  NoDup (map fst students) /\ forall k, In k (map fst students) -> inherited k = false.

(** A sample document. *)
Definition doc (i : string) (y : Z) (gpa : float) : Result :=
  {| indexNo := i; name := "N"; semester := 1; year := y; courses := [];
     semesterGPA := gpa; aggregate := None |}.

End Aggregator.

(** ** Sample sheets *)

Module Sheets.

Import Parser.

Definition header : string := "IndexNo  Name  CO101  CO102  CO103  CO104  CO105".

(** The end-to-end scenario of the specification. *)
Definition janeRow : string := "20/COM/001  Jane Doe  A  B+  C  A-  F".

Definition jane : string := header ++ newline ++ janeRow.

(** A sheet with table borders, one accepted row and page furniture. *)
Definition bordered : string :=
  "| IndexNo  | Name  | CO131  | CO102  | CO1" ++ newline ++
  "--------------------------------------------" ++ newline ++
  "| 20/COM/002  | Sam Roe  | A  | b+  | C  | A-  | A+ |" ++ newline ++
  "Page 1  of 2" ++ newline.

(** An accepted row followed by a row with a token outside the table. *)
Definition withD : string :=
  header ++ newline ++
  "20/COM/003  Ann Lee  A  A  B  B  C" ++ newline ++
  "20/COM/004  Bob Poe  A  D  B  B  C".

(** A row of table tokens, F among them, followed by a row with a
    token outside the table. *)
Definition annRow : string := "20/COM/003  Ann Lee  A  A  F  B  C".

Definition bobRow : string := "20/COM/004  Bob Poe  A  D  B  B  C".

Definition withFD : string := header ++ newline ++ annRow ++ newline ++ bobRow.

(** A header and lines that have fewer than seven columns. *)
Definition furniture : string :=
  header ++ newline ++ "Faculty of Science" ++ newline ++ "Page 1  of 2".

(** Three sheets of one student, courses of 3, 3, 2, 2 and 2 credit
    hours, for the years 1, 2 and 3. *)
Definition weighted : string := "IndexNo  Name  CO131  CO132  CO123  CO124  CO125".

Definition yearOne : string := weighted ++ newline ++ "20/COM/008  Pat Ash  A+  A-  A+  B+  A+".

Definition yearTwo : string := weighted ++ newline ++ "20/COM/008  Pat Ash  A  A+  A-  A+  A+".

Definition yearThree : string := weighted ++ newline ++ "20/COM/008  Pat Ash  A+  A+  A+  B  B+".

(** The semester GPAs a parse returns, or nothing when it throws. *)
Definition gpas (text semester year : string) : list float :=
  match parseResultText text semester year with
  | Returns results => map semesterGPA results
  | Throws _ => []
  end.

(** A row that the recognizer prefixed with a dash. *)
Definition dashedRow : string := "- 20/COM/005  Kim Day  A  A  A  A  A".

Definition dashed : string :=
  header ++ newline ++ dashedRow ++ newline ++ "20/COM/006  Lee Ray  B  B  B  B  B".

End Sheets.

(** ** Sample stores *)

Module Stores.

Import Aggregator.

(** The aggregation scenario of the specification, with a second
    student in between. *)
Definition example : list Result :=
  [doc "20/COM/001" 1 3.0; doc "20/COM/002" 2 2.5;
   doc "20/COM/001" 1 4.0; doc "20/COM/001" 2 3.3].

(** The semester GPAs of the sheets [yearOne], [yearTwo] and
    [yearThree]: 43.9, 45.7 and 43.4 quality points over 12 credit
    hours. *)
Definition rounding : list Result :=
  [doc "20/COM/008" 1 (43.9 / 12); doc "20/COM/008" 2 (45.7 / 12);
   doc "20/COM/008" 3 (43.4 / 12)].

(** Four documents of one year, in two orders. *)
Definition forward : list Result :=
  [doc "a" 1 3.6; doc "a" 1 3.8; doc "a" 1 3.74; doc "a" 1 3.64].

Definition backward : list Result := rev forward.

(** A student alone, and next to a document filed under the name of
    an inherited member. *)
Definition alone : list Result := [doc "a" 1 3.5].

Definition withInherited : list Result := [doc "a" 1 3.5; doc "constructor" 1 3.5].

(** The first student of [example] under another name, semester and
    course list, next to other students. *)
Definition renamed : list Result :=
  [doc "20/COM/009" 3 1.5;
   {| indexNo := "20/COM/001"; name := "J. Doe"; semester := 2; year := 1;
      courses := [{| Parser.code := "CO101"; Parser.grade := "B+";
                     Parser.creditHours := 2; Parser.qualityPoints := 6 |}];
      semesterGPA := 3.0; aggregate := None |};
   doc "20/COM/001" 1 4.0; doc "20/COM/007" 1 2.0; doc "20/COM/001" 2 3.3].

(** The documents of [example] with the aggregate fields filled in. *)
Definition aggregated : list Result :=
  map (fun r => setAggregate {| yearGPA := [(1%Z, 3.5%float); (2%Z, 3.3%float)];
                                finalGPA := 3.4; finalClass := "Second Upper Class" |} r)
      example.

(** Two students on the two sides of the first-class bound. *)
Definition boundary : list Result := [doc "a" 1 3.7; doc "b" 1 3.69].

End Stores.

(** ** What a parse returns, row by row *)

Module Rows.

Import JS Parser.

(** [columns.length >= 7] *)
Definition validRow (line : string) : bool := (7 <=? List.length (columnsOf line))%nat.

(** All five course columns pass the table check. *)
Definition rowAccepted (line : string) : bool :=
  forallb (fun j => negb (falsy (member (gradeAt (columnsOf line) j) gradePoints))) (seq 2 5).

(** The object pushed for a line whose row is complete and accepted. *)
Definition rowResult (headers : list string) (semester year : string) (line : string)
    : SemesterResult :=
  let columns := columnsOf line in
  let courses := map (courseAt headers columns semester year) (seq 2 5) in
  {| indexNo := trim (nth 0 columns EmptyString);
     name := trim (nth 1 columns EmptyString);
     semester := semester; year := year;
     courses := courses;
     semesterGPA := (total (map qualityPoints courses) /
                     total (map (fun c => number (creditHours c)) courses))%float |}.

(** Two adjacent white-space characters somewhere in the string. *)
Fixpoint hasGap (s : string) : bool :=
  match s with
  | EmptyString => false
  | String c r => (isSpace c && headIsSpace r) || hasGap r
  end.

(** The credit hours of a row, added as integers. *)
Definition sumHours (courses : list Course) : Z :=
  fold_left (fun sum c => (sum + creditHours c)%Z) courses 0%Z.

(** The text with a carriage return put before every line feed. *)
Fixpoint crlf (text : string) : string :=
  match text with
  | EmptyString => EmptyString
  | String c r =>
      if Ascii.eqb c "010" then String "013" (String "010" (crlf r))
      else String c (crlf r)
  end.

End Rows.

(** ** The request handlers around the parser and the store *)

Module Handlers.

Import JS Parser.

(** The answers of [/api/upload] (server.js, lines 167-204): status 400
    without a file, 200 with the number of results, 500 with the message
    of whatever was thrown. *)
Inductive UploadResponse : Type :=
| NoFileUploaded
| Processed (count : nat)
| ProcessingFailed (details : string).

Section Upload.

(** The store and its [insertMany] belong to the store library: the
    handler sees a new store and, when the call throws, a message. *)
Variable Store : Type.
Variable insertMany : list SemesterResult -> Store -> Store * option string.

(** The handler of [/api/upload].  [file] says whether the request
    carries [req.file]; [ocr] is what [processResultSheet] gives for that
    file, the recognized text or the message of the error it throws. *)
Definition upload (file : bool) (ocr : string + string) (semester year : string)
    (store : Store) : UploadResponse * Store :=
  if file then
    match ocr with
    | inl ocrText =>
        match parseResultText ocrText semester year with
        | Returns results =>
            match insertMany results store with
            | (store', None) => (Processed (List.length results), store')
            | (store', Some msg) => (ProcessingFailed msg, store')
            end
        | Throws e => (ProcessingFailed (message e), store)
        end
    | inr msg => (ProcessingFailed msg, store)
    end
  else (NoFileUploaded, store).

End Upload.

(** The answers of [/api/student/:indexNo] (server.js, lines 282-308). *)
Inductive LookupResponse : Type :=
| StudentNotFound
| Found (data : Aggregator.Result).

(** [Result.findOne({ indexNo }).sort({ _id: -1 })]: of the documents
    with that [indexNo], the one inserted last. *)
Definition lookupStudent (indexNo : string) (store : list Aggregator.Result) : LookupResponse :=
  match rev (Aggregator.recordsOf indexNo store) with
  | [] => StudentNotFound
  | r :: _ => Found r
  end.

End Handlers.

(** ** Years as property keys *)

Module Years.

Import JS Aggregator.

(** The year is an array index, as the years 1, 2 and 3 are. *)
Definition indexYear (y : Z) : bool := (0 <=? y)%Z && (y <? Z.of_N maxIndex)%Z.

(** The documents of one year, in store order. *)
Definition ofYear (y : Z) (rs : list Result) : list Result :=
  filter (fun r => (year r =? y)%Z) rs.

(** The own property [y] of [resultsByYear]. *)
Fixpoint lookupYear (y : Z) (byYear : list (Z * list Result)) : option (list Result) :=
  match byYear with
  | [] => None
  | (y', rs) :: t => if (y =? y')%Z then Some rs else lookupYear y t
  end.

End Years.

(** * Properties of the parser *)

Module ParserFacts.

Import JS Parser.

Lemma lookupOwn_None {V : Type} (k : string) (o : list (string * V)) :
  lookupOwn k o = None <-> ~ In k (map fst o).
Proof.
  induction o as [|[k' v] t IH]; simpl.
  - tauto.
  - destruct (String.eqb_spec k k') as [->|Hne].
    + split; [discriminate | intros H; exfalso; apply H; now left].
    + rewrite IH. split; [intros H [E|E]; [congruence | tauto] | tauto].
Qed.

Lemma lookupOwn_Some_In {V : Type} (k : string) (o : list (string * V)) (v : V) :
  lookupOwn k o = Some v -> In (k, v) o.
Proof.
  induction o as [|[k' w] t IH]; simpl; [discriminate|].
  destruct (String.eqb_spec k k') as [->|Hne].
  - intros [= ->]. now left.
  - intros H. right. auto.
Qed.

Lemma upperChar_not_lower (c : ascii) : isLower (upperChar c) = false.
Proof.
  destruct c as [[] [] [] [] [] [] [] []]; reflexivity.
Qed.

Lemma toUpperCase_noLower (s : string) : noLower (toUpperCase s) = true.
Proof.
  induction s as [|c r IH]; simpl; [reflexivity|].
  now rewrite upperChar_not_lower, IH.
Qed.

Lemma inherited_has_lower (k : string) : inherited k = true -> noLower k = false.
Proof.
  unfold inherited. rewrite existsb_exists. intros [n [Hin Heq]].
  apply String.eqb_eq in Heq. subst n.
  repeat (destruct Hin as [<-|Hin]; [reflexivity|]). destruct Hin.
Qed.

(** An upper-cased token never names an inherited member, so the table
    read sees own grades only. *)
Lemma toUpperCase_not_inherited (s : string) : inherited (toUpperCase s) = false.
Proof.
  destruct (inherited (toUpperCase s)) eqn:E; [|reflexivity].
  apply inherited_has_lower in E. now rewrite toUpperCase_noLower in E.
Qed.

Lemma gradeAt_not_inherited (columns : list string) (j : nat) :
  inherited (gradeAt columns j) = false.
Proof. apply toUpperCase_not_inherited. Qed.

(** A token outside the table is refused by the check. *)
Lemma unknown_grade_falsy (columns : list string) (j : nat) :
  ~ In (gradeAt columns j) gradeTokens ->
  falsy (member (gradeAt columns j) gradePoints) = true.
Proof.
  intros H. unfold member.
  apply lookupOwn_None in H. rewrite H, gradeAt_not_inherited. reflexivity.
Qed.

(** A token the check lets through is an own grade with its constant. *)
Lemma accepted_grade (columns : list string) (j : nat) :
  falsy (member (gradeAt columns j) gradePoints) = false ->
  exists x, lookupOwn (gradeAt columns j) gradePoints = Some x /\
            member (gradeAt columns j) gradePoints = Num x /\
            falsyNumber x = false.
Proof.
  unfold member. destruct (lookupOwn (gradeAt columns j) gradePoints) as [x|] eqn:E.
  - simpl. intros H. now exists x.
  - rewrite gradeAt_not_inherited. discriminate.
Qed.

(** ** The loop over the five course columns *)

Section CourseLoop.

Variables (headers columns : list string) (semester year name : string).

Lemma courseLoop_returns (n j : nat) (st st' : RowState) :
  courseLoop headers columns semester year name j n st = Returns st' ->
  rowCourses st' = rowCourses st ++ map (courseAt headers columns semester year) (seq j n) /\
  totalQualityPoints st' =
    fold_left (fun sum x => sum + x)%float
      (map (fun i => qualityPoints (courseAt headers columns semester year i)) (seq j n)) (totalQualityPoints st) /\
  totalCreditHours st' =
    fold_left (fun sum x => sum + x)%float
      (map (fun i => number (creditHours (courseAt headers columns semester year i))) (seq j n)) (totalCreditHours st) /\
  (forall i, j <= i < j + n -> falsy (member (gradeAt columns i) gradePoints) = false).
Proof.
  revert j st. induction n as [|n IH]; intros j st; simpl.
  - intros [= <-]. rewrite app_nil_r. repeat split. intros i Hi. lia.
  - unfold courseStep.
    destruct (falsy (member (gradeAt columns j) gradePoints)) eqn:Hf; [discriminate|].
    intros H. apply IH in H. simpl in H. destruct H as (Hc & Hq & Hh & Hr).
    rewrite Hc, Hq, Hh, <- app_assoc. repeat split.
    intros i Hi. destruct (Nat.eq_dec i j) as [->|Hne]; [exact Hf|]. apply Hr. lia.
Qed.

Lemma courseLoop_throws (n j : nat) (st : RowState) (e : ParseError) :
  courseLoop headers columns semester year name j n st = Throws e ->
  exists i, j <= i < j + n /\ falsy (member (gradeAt columns i) gradePoints) = true /\
            e = InvalidGrade (gradeAt columns i) name.
Proof.
  revert j st. induction n as [|n IH]; intros j st; simpl.
  - discriminate.
  - unfold courseStep.
    destruct (falsy (member (gradeAt columns j) gradePoints)) eqn:Hf.
    + intros [= <-]. exists j. repeat split; [lia | lia | exact Hf].
    + intros H. apply IH in H. destruct H as (i & Hi & Hr & He).
      exists i. repeat split; [lia | lia | exact Hr | exact He].
Qed.

Lemma courseLoop_rejects (n j i : nat) (st : RowState) :
  j <= i < j + n -> falsy (member (gradeAt columns i) gradePoints) = true -> exists e, courseLoop headers columns semester year name j n st = Throws e.
Proof.
  revert j st. induction n as [|n IH]; intros j st Hi Hr; simpl.
  - lia.
  - unfold courseStep.
    destruct (falsy (member (gradeAt columns j) gradePoints)) eqn:Hf.
    + eexists. reflexivity.
    + apply IH; [|exact Hr].
      destruct (Nat.eq_dec i j) as [->|Hne]; [congruence | lia].
Qed.

Lemma courseLoop_accepts (n j : nat) (st : RowState) :
  (forall i, j <= i < j + n -> falsy (member (gradeAt columns i) gradePoints) = false) ->
  exists st', courseLoop headers columns semester year name j n st = Returns st'.
Proof.
  revert j st. induction n as [|n IH]; intros j st Hr; simpl.
  - eexists. reflexivity.
  - unfold courseStep. rewrite (Hr j) by lia. apply IH. intros i Hi. apply Hr. lia.
Qed.

End CourseLoop.

(** ** One data line *)

Section Row.

Variables (headers : list string) (semester year : string).

Lemma parseRow_short (line : string) :
  List.length (columnsOf line) < 7 -> parseRow headers semester year line = Returns None.
Proof.
  intros H. unfold parseRow.
  destruct (Nat.leb_spec 7 (List.length (columnsOf line))); [lia | reflexivity].
Qed.

Lemma parseRow_returns (line : string) (r : SemesterResult) :
  parseRow headers semester year line = Returns (Some r) ->
  builtFrom headers semester year line r.
Proof.
  unfold parseRow, builtFrom.
  destruct (Nat.leb_spec 7 (List.length (columnsOf line))) as [Hlen|Hlen]; [|discriminate].
  destruct (courseLoop _ _ _ _ _ 2 5 _) as [st|e] eqn:Hloop; [|discriminate].
  intros [= <-]. apply courseLoop_returns in Hloop.
  destruct Hloop as (Hc & Hq & Hh & Hr). cbn [rowCourses totalQualityPoints totalCreditHours app] in *.
  cbn [indexNo name Parser.semester Parser.year courses semesterGPA].
  rewrite Hc, Hq, Hh. unfold total. rewrite !map_map.
  repeat split; try reflexivity; try assumption.
Qed.

Lemma parseRow_throws (line : string) (e : ParseError) :
  parseRow headers semester year line = Throws e ->
  let columns := columnsOf line in
  7 <= List.length columns /\
  exists i, 2 <= i < 7 /\ falsy (member (gradeAt columns i) gradePoints) = true /\
            e = InvalidGrade (gradeAt columns i) (trim (nth 1 columns EmptyString)).
Proof.
  unfold parseRow.
  destruct (Nat.leb_spec 7 (List.length (columnsOf line))) as [Hlen|Hlen]; [|discriminate].
  destruct (courseLoop _ _ _ _ _ 2 5 _) as [st|e'] eqn:Hloop; [discriminate|].
  intros [= <-]. apply courseLoop_throws in Hloop.
  destruct Hloop as (i & Hi & Hr & He). split; [exact Hlen|].
  exists i. repeat split; [lia | lia | exact Hr | exact He].
Qed.

Lemma parseRow_rejects (line : string) (i : nat) :
  7 <= List.length (columnsOf line) -> 2 <= i < 7 ->
  falsy (member (gradeAt (columnsOf line) i) gradePoints) = true ->
  exists e, parseRow headers semester year line = Throws e.
Proof.
  intros Hlen Hi Hr. unfold parseRow.
  destruct (Nat.leb_spec 7 (List.length (columnsOf line))); [|lia].
  destruct (courseLoop_rejects headers (columnsOf line) semester year
              (trim (nth 1 (columnsOf line) EmptyString)) 5 2 i
              {| rowCourses := []; totalQualityPoints := 0; totalCreditHours := 0 |})
    as [e He]; [lia | exact Hr |].
  rewrite He. now exists e.
Qed.

Lemma parseRow_accepts (line : string) :
  7 <= List.length (columnsOf line) ->
  (forall i, 2 <= i < 7 -> falsy (member (gradeAt (columnsOf line) i) gradePoints) = false) ->
  exists r, parseRow headers semester year line = Returns (Some r).
Proof.
  intros Hlen Hr. unfold parseRow.
  destruct (Nat.leb_spec 7 (List.length (columnsOf line))); [|lia].
  destruct (courseLoop_accepts headers (columnsOf line) semester year
              (trim (nth 1 (columnsOf line) EmptyString)) 5 2
              {| rowCourses := []; totalQualityPoints := 0; totalCreditHours := 0 |})
    as [st Hst]; [intros i Hi; apply Hr; lia |].
  rewrite Hst. eexists. reflexivity.
Qed.

(** ** The loop over the data lines *)

Lemma rowLoop_returns (rest : list string) (acc results : list SemesterResult) :
  rowLoop headers semester year rest acc = Returns results ->
  exists emitted, results = acc ++ emitted /\
    forall r, In r emitted ->
      exists line, In line rest /\ parseRow headers semester year line = Returns (Some r).
Proof.
  revert acc. induction rest as [|line rest IH]; intros acc; simpl.
  - intros [= <-]. exists []. rewrite app_nil_r. split; [reflexivity | intros r []].
  - destruct (parseRow headers semester year line) as [[r|]|e] eqn:Hrow; [| |discriminate].
    + intros H. apply IH in H. destruct H as (em & -> & Hem).
      exists (r :: em). rewrite <- app_assoc. split; [reflexivity|].
      intros r' [<-|Hin].
      * exists line. split; [now left | exact Hrow].
      * destruct (Hem r' Hin) as (l & Hl & Hp). exists l. split; [now right | exact Hp].
    + intros H. apply IH in H. destruct H as (em & -> & Hem).
      exists em. split; [reflexivity|].
      intros r' Hin. destruct (Hem r' Hin) as (l & Hl & Hp).
      exists l. split; [now right | exact Hp].
Qed.

Lemma rowLoop_throws (rest : list string) (acc : list SemesterResult) (e : ParseError) :
  rowLoop headers semester year rest acc = Throws e ->
  exists line, In line rest /\ parseRow headers semester year line = Throws e.
Proof.
  revert acc. induction rest as [|line rest IH]; intros acc; simpl; [discriminate|].
  destruct (parseRow headers semester year line) as [[r|]|e'] eqn:Hrow.
  - intros H. apply IH in H. destruct H as (l & Hl & Hp). exists l. split; [now right | exact Hp].
  - intros H. apply IH in H. destruct H as (l & Hl & Hp). exists l. split; [now right | exact Hp].
  - intros [= <-]. exists line. split; [now left | exact Hrow].
Qed.

Lemma rowLoop_aborts (rest : list string) (acc : list SemesterResult) (line : string) (e : ParseError) :
  In line rest -> parseRow headers semester year line = Throws e ->
  exists e', rowLoop headers semester year rest acc = Throws e'.
Proof.
  revert acc. induction rest as [|l rest IH]; intros acc Hin Hrow; simpl; [destruct Hin|].
  destruct (parseRow headers semester year l) as [[r|]|e'] eqn:Hl.
  - destruct Hin as [->|Hin]; [congruence | eauto].
  - destruct Hin as [->|Hin]; [congruence | eauto].
  - now exists e'.
Qed.

Lemma rowLoop_skips (rest : list string) (acc : list SemesterResult) :
  (forall line, In line rest -> List.length (columnsOf line) < 7) ->
  rowLoop headers semester year rest acc = Returns acc.
Proof.
  induction rest as [|l rest IH]; intros H; simpl; [reflexivity|].
  rewrite parseRow_short by (apply H; now left).
  apply IH. intros line Hin. apply H. now right.
Qed.

End Row.

Lemma parse_unfold (text semester year : string) :
  2 <= List.length (lines text) ->
  parseResultText text semester year =
  rowLoop (columnsOf (nth 0 (lines text) EmptyString)) semester year (tl (lines text)) [].
Proof.
  intros H. unfold parseResultText.
  destruct (Nat.ltb_spec (List.length (lines text)) 2); [lia | reflexivity].
Qed.

Lemma tl_nonempty_length {A : Type} (l : list A) (x : A) : In x (tl l) -> 2 <= List.length l.
Proof.
  destruct l as [|a [|b t]]; simpl; intros H; try destruct H; lia.
Qed.

(** Every result a parse returns was built from one of the data lines. *)
Lemma parse_returns (text semester year : string) (results : list SemesterResult) (r : SemesterResult) :
  parseResultText text semester year = Returns results -> In r results ->
  exists line, In line (tl (lines text)) /\
    builtFrom (columnsOf (nth 0 (lines text) EmptyString)) semester year line r.
Proof.
  unfold parseResultText.
  destruct (Nat.ltb_spec (List.length (lines text)) 2) as [Hlt|Hge]; [discriminate|].
  intros H Hin. apply rowLoop_returns in H. destruct H as (em & -> & Hem).
  destruct (Hem r Hin) as (line & Hl & Hp).
  exists line. split; [exact Hl | now apply parseRow_returns].
Qed.

(** ** Grades *)

Lemma F_is_falsy : falsy (member "F" gradePoints) = true.
Proof. reflexivity. Qed.

(** The nine tokens with a non-zero constant pass the check. *)
Lemma nonzero_grade_accepted (g : string) (x : float) :
  In (g, x) gradePoints -> g <> "F" ->
  member g gradePoints = Num x /\ falsy (member g gradePoints) = false.
Proof.
  intros Hin HF. unfold gradePoints in Hin.
  repeat (destruct Hin as [[= <- <-]|Hin]; [first [now split | congruence]|]).
  destruct Hin.
Qed.

(** A row with seven columns and [F] in a course column throws. *)
Lemma F_row_throws (headers : list string) (semester year line : string) (j : nat) :
  7 <= List.length (columnsOf line) -> 2 <= j < 7 ->
  gradeAt (columnsOf line) j = "F" ->
  exists e, parseRow headers semester year line = Throws e.
Proof.
  intros Hlen Hj HF. apply (parseRow_rejects headers semester year line j Hlen Hj).
  rewrite HF. reflexivity.
Qed.

(** C1: the table gives F the constant 0.0, and a row that holds F in a
    course column is nevertheless refused: on the end-to-end sheet of the
    specification the parse throws "Invalid grade 'F' for Jane Doe". *)
Theorem grade_F_sheet_throws :
  lookupOwn "F" gradePoints = Some 0%float /\
  parseResultText Sheets.jane "1" "1" = Throws (InvalidGrade "F" "Jane Doe").
Proof. split; vm_compute; reflexivity. Qed.

(** ** Invalid grades *)

(** When a data line with at least seven columns holds, in one of its
    five course columns, a token outside the grade table, the parse
    throws; the error names a refused grade of such a line together with
    the name in its second column, and no result is returned. *)
Lemma invalid_grade_aborts_batch (text semester year line : string) (j : nat) :
  In line (tl (lines text)) ->
  7 <= List.length (columnsOf line) ->
  2 <= j < 7 ->
  ~ In (gradeAt (columnsOf line) j) gradeTokens ->
  (exists bad i,
      In bad (tl (lines text)) /\ 7 <= List.length (columnsOf bad) /\ 2 <= i < 7 /\
      falsy (member (gradeAt (columnsOf bad) i) gradePoints) = true /\
      exists e,
        parseResultText text semester year = Throws e /\
        message e = ("Invalid grade '" ++ gradeAt (columnsOf bad) i ++ "' for "
                       ++ trim (nth 1 (columnsOf bad) EmptyString))%string) /\
  (forall results, parseResultText text semester year <> Returns results).
Proof.
  intros Hin Hlen Hj Hbad.
  assert (Hthrow : exists bad i,
      In bad (tl (lines text)) /\ 7 <= List.length (columnsOf bad) /\ 2 <= i < 7 /\
      falsy (member (gradeAt (columnsOf bad) i) gradePoints) = true /\
      parseResultText text semester year =
        Throws (InvalidGrade (gradeAt (columnsOf bad) i)
                             (trim (nth 1 (columnsOf bad) EmptyString)))).
  { rewrite parse_unfold by (eapply tl_nonempty_length; eassumption).
    set (headers := columnsOf (nth 0 (lines text) EmptyString)).
    destruct (parseRow_rejects headers semester year line j Hlen Hj
                (unknown_grade_falsy _ _ Hbad)) as [e He].
    destruct (rowLoop_aborts headers semester year _ [] line e Hin He) as [e' He'].
    destruct (rowLoop_throws _ _ _ _ _ _ He') as (bad & Hb & Hrow).
    destruct (parseRow_throws _ _ _ _ _ Hrow) as (Hl & i & Hi & Hf & ->).
    exists bad, i. repeat split; try assumption; lia. }
  destruct Hthrow as (bad & i & Hb & Hl & Hi & Hf & Hp). split.
  - exists bad, i. repeat split; try assumption; try lia.
    eexists. split; [exact Hp | reflexivity].
  - intros results. rewrite Hp. discriminate.
Qed.

(** C2: the error need not name the invalid grade.  On a sheet whose
    first row, Ann Lee's, holds table tokens only, F among them, and
    whose second row, Bob Poe's, holds the token D, the parse throws
    "Invalid grade 'F' for Ann Lee": it names a grade of the table and
    the student of a row without an invalid token. *)
Theorem invalid_grade_names_valid_row :
  tl (lines Sheets.withFD) = [Sheets.annRow; Sheets.bobRow] /\
  List.length (columnsOf Sheets.annRow) = 7 /\
  List.length (columnsOf Sheets.bobRow) = 7 /\
  map (gradeAt (columnsOf Sheets.annRow)) (seq 2 5) = ["A"; "A"; "F"; "B"; "C"] /\
  forallb inTable ["A"; "A"; "F"; "B"; "C"] = true /\
  map (gradeAt (columnsOf Sheets.bobRow)) (seq 2 5) = ["A"; "D"; "B"; "B"; "C"] /\
  inTable "D" = false /\
  parseResultText Sheets.withFD "1" "2" = Throws (InvalidGrade "F" "Ann Lee") /\
  message (InvalidGrade "F" "Ann Lee") = "Invalid grade 'F' for Ann Lee".
Proof. repeat split; vm_compute; reflexivity. Qed.

(** The sheet [Sheets.withD] throws on Bob Poe's [D], after Ann Lee's row. *)
Lemma withD_throws :
  parseResultText Sheets.withD "1" "2" = Throws (InvalidGrade "D" "Bob Poe") /\
  message (InvalidGrade "D" "Bob Poe") = "Invalid grade 'D' for Bob Poe".
Proof. split; vm_compute; reflexivity. Qed.

(** ** The semester GPA *)

Lemma builtFrom_courses (headers : list string) (semester year line : string)
    (r : SemesterResult) (c : Course) :
  builtFrom headers semester year line r -> In c (courses r) ->
  exists j, 2 <= j < 7 /\ c = courseAt headers (columnsOf line) semester year j.
Proof.
  intros (_ & _ & _ & _ & _ & Hc & _ & _) Hin. rewrite Hc in Hin.
  apply in_map_iff in Hin. destruct Hin as (j & <- & Hj). apply in_seq in Hj.
  exists j. split; [lia | reflexivity].
Qed.

(** A line with seven columns whose five grades are table tokens other
    than F yields a result. *)
Lemma graded_row_returns (headers : list string) (semester year line : string) :
  7 <= List.length (columnsOf line) ->
  (forall j, 2 <= j < 7 ->
     In (gradeAt (columnsOf line) j) gradeTokens /\ gradeAt (columnsOf line) j <> "F") ->
  exists r, parseRow headers semester year line = Returns (Some r).
Proof.
  intros Hlen Hg. apply parseRow_accepts; [exact Hlen|].
  intros i Hi. destruct (Hg i Hi) as [Hin HF].
  unfold gradeTokens in Hin. apply in_map_iff in Hin. destruct Hin as ([g x] & Hfst & Hin).
  simpl in Hfst. subst g.
  now destruct (nonzero_grade_accepted _ x Hin HF).
Qed.

(** Such a line yields the result built from its own tokens and the
    header: course [j] has the token of column [j] as its grade, the
    credit hours of the header's code, the token's table constant times
    the credit hours as its quality points, and the semester GPA is the
    sum of the quality points over the sum of the credit hours, both
    summed left to right from 0. *)
Lemma graded_row_result (headers : list string) (semester year line : string) :
  7 <= List.length (columnsOf line) ->
  (forall j, 2 <= j < 7 ->
     In (gradeAt (columnsOf line) j) gradeTokens /\ gradeAt (columnsOf line) j <> "F") ->
  exists r,
    parseRow headers semester year line = Returns (Some r) /\
    courses r = map (courseAt headers (columnsOf line) semester year) (seq 2 5) /\
    (forall c, In c (courses r) ->
       exists points, lookupOwn (grade c) gradePoints = Some points /\
                      qualityPoints c = (points * number (creditHours c))%float) /\
    semesterGPA r =
      (total (map qualityPoints (courses r)) /
       total (map (fun c => number (creditHours c)) (courses r)))%float.
Proof.
  intros Hlen Hg. destruct (graded_row_returns headers semester year line Hlen Hg) as [r Hr].
  exists r. split; [exact Hr|].
  pose proof (parseRow_returns _ _ _ _ _ Hr) as Hbuilt.
  pose proof Hbuilt as (_ & _ & _ & _ & _ & Hc & Hgpa & Hacc).
  split; [exact Hc|]. split; [|exact Hgpa].
  intros c Hcin.
  destruct (builtFrom_courses _ _ _ _ _ _ Hbuilt Hcin) as (j & Hj & ->).
  destruct (accepted_grade (columnsOf line) j (Hacc j Hj)) as (x & Hown & Hmem & _).
  cbn [grade qualityPoints creditHours courseAt].
  exists x. split; [exact Hown|]. rewrite Hmem. reflexivity.
Qed.

(** C4: a row whose five course columns hold table tokens gets no
    Semester Result when one of them is F.  The row of the end-to-end
    sheet has seven columns and the tokens A, B+, C, A- and F, whose
    constants over 2 credit hours each give the weighted mean 2.34; the
    parse throws and returns no semester GPA at all. *)
Theorem table_row_with_F_yields_no_result :
  List.length (columnsOf Sheets.janeRow) = 7 /\
  map (gradeAt (columnsOf Sheets.janeRow)) (seq 2 5) = ["A"; "B+"; "C"; "A-"; "F"] /\
  forallb inTable ["A"; "B+"; "C"; "A-"; "F"] = true /\
  map (fun j => (lookupOwn (gradeAt (columnsOf Sheets.janeRow) j) gradePoints,
                 creditHoursOf (courseCodeAt (columnsOf Sheets.header) "1" "1" j)))
      (seq 2 5) =
    [(Some 3.7, 2%Z); (Some 3.0, 2%Z); (Some 1.7, 2%Z); (Some 3.3, 2%Z); (Some 0.0, 2%Z)]%float /\
  weightedGPA [(3.7, 2%Z); (3.0, 2%Z); (1.7, 2%Z); (3.3, 2%Z); (0.0, 2%Z)]%float = 2.34%float /\
  parseResultText Sheets.jane "1" "1" = Throws (InvalidGrade "F" "Jane Doe") /\
  Sheets.gpas Sheets.jane "1" "1" = [].
Proof. repeat split; vm_compute; reflexivity. Qed.

(** ** Too few lines, and lines that are skipped *)

(** C6: the parse throws the insufficient-data error exactly when
    fewer than two lines are left after the clean-up; with two or more
    lines of which every data line has fewer than seven columns it
    returns the empty sequence. *)
Theorem insufficient_iff_short (text semester year : string) :
  (parseResultText text semester year = Throws InsufficientData <->
   List.length (lines text) < 2) /\
  (2 <= List.length (lines text) ->
   (forall line, In line (tl (lines text)) -> List.length (columnsOf line) < 7) ->
   parseResultText text semester year = Returns []).
Proof.
  split; [split|].
  - intros H. destruct (Nat.lt_ge_cases (List.length (lines text)) 2) as [Hlt|Hge]; [exact Hlt|].
    rewrite parse_unfold in H by exact Hge.
    apply rowLoop_throws in H. destruct H as (line & _ & Hrow).
    apply parseRow_throws in Hrow. destruct Hrow as (_ & i & _ & _ & Habs). discriminate Habs.
  - intros Hlt. unfold parseResultText.
    destruct (Nat.ltb_spec (List.length (lines text)) 2); [reflexivity | lia].
  - intros Hge Hshort. rewrite parse_unfold by exact Hge.
    now apply rowLoop_skips.
Qed.

Lemma insufficient_iff_short_witness :
  parseResultText Sheets.header "1" "1" = Throws InsufficientData /\
  parseResultText Sheets.furniture "1" "1" = Returns [].
Proof.
  split.
  - apply (insufficient_iff_short Sheets.header "1" "1"). vm_compute. lia.
  - apply (insufficient_iff_short Sheets.furniture "1" "1").
    + vm_compute. lia.
    + intros line Hin. vm_compute in Hin.
      destruct Hin as [<-|[<-|[]]]; vm_compute; lia.
Defined.

(** ** Line clean-up *)

Lemma removeAll_contains (x : ascii) (s : string) : contains x (removeAll x s) = false.
Proof.
  induction s as [|c r IH]; simpl; [reflexivity|].
  destruct (Ascii.eqb c x) eqn:E; [exact IH|]. simpl. now rewrite E.
Qed.

Lemma trimStart_contains (x : ascii) (s : string) :
  contains x s = false -> contains x (trimStart s) = false.
Proof.
  induction s as [|c r IH]; simpl; [reflexivity|].
  intros H. apply orb_false_iff in H. destruct H as [Hc Hr].
  destruct (isSpace c); [auto|]. simpl. now rewrite Hc, Hr.
Qed.

Lemma trimEnd_contains (x : ascii) (s : string) :
  contains x s = false -> contains x (trimEnd s) = false.
Proof.
  induction s as [|c r IH]; simpl; [reflexivity|].
  intros H. apply orb_false_iff in H. destruct H as [Hc Hr]. specialize (IH Hr).
  destruct (trimEnd r) as [|c' r'].
  - destruct (isSpace c); [reflexivity|]. simpl. now rewrite Hc.
  - simpl in *. now rewrite Hc, IH.
Qed.

Lemma trimEnd_idempotent (s : string) : trimEnd (trimEnd s) = trimEnd s.
Proof.
  induction s as [|c r IH]; simpl; [reflexivity|].
  destruct (trimEnd r) as [|c' r'] eqn:E.
  - destruct (isSpace c) eqn:Hc; simpl; [reflexivity|]. now rewrite Hc.
  - change (trimEnd (String c (String c' r'))) with
      (match trimEnd (String c' r') with
       | EmptyString => if isSpace c then EmptyString else String c EmptyString
       | r'' => String c r''
       end).
    rewrite IH. reflexivity.
Qed.

Lemma trimStart_head (s : string) : headIsSpace (trimStart s) = false.
Proof.
  induction s as [|c r IH]; simpl; [reflexivity|].
  destruct (isSpace c) eqn:Hc; [exact IH|]. simpl. exact Hc.
Qed.

Lemma trimEnd_head (s : string) : headIsSpace s = false -> headIsSpace (trimEnd s) = false.
Proof.
  destruct s as [|c r]; simpl; [reflexivity|]. intros Hc.
  destruct (trimEnd r); [rewrite Hc|]; simpl; exact Hc.
Qed.

Lemma trimStart_fixed (s : string) : headIsSpace s = false -> trimStart s = s.
Proof.
  destruct s as [|c r]; simpl; [reflexivity|]. now intros ->.
Qed.

Lemma trim_idempotent (s : string) : trim (trim s) = trim s.
Proof.
  unfold trim.
  rewrite (trimStart_fixed (trimEnd (trimStart s))).
  - apply trimEnd_idempotent.
  - apply trimEnd_head, trimStart_head.
Qed.

(** C7 (as the code has it): a retained line is a raw line with its pipe
    characters removed and both ends trimmed, and a cleaned line is
    retained exactly when it is not empty and does not begin with a
    dash. *)
Theorem lines_retained (text line : string) :
  (In line (lines text) <->
     (exists raw, In raw (split "010" text) /\ line = trim (removeAll "|" raw)) /\
     line <> EmptyString /\ startsWith "-" line = false) /\
  (In line (lines text) -> contains "|" line = false /\ trim line = line).
Proof.
  assert (Hchar : In line (lines text) <->
     (exists raw, In raw (split "010" text) /\ line = trim (removeAll "|" raw)) /\
     line <> EmptyString /\ startsWith "-" line = false).
  { unfold lines, keepLine. rewrite filter_In, in_map_iff, andb_true_iff, !negb_true_iff.
    split.
    - intros ((raw & <- & Hraw) & He & Hd). repeat split; [now exists raw | | exact Hd].
      intros Habs. now rewrite Habs in He.
    - intros ((raw & Hraw & ->) & Hne & Hd). repeat split; [now exists raw | | exact Hd].
      destruct (trim (removeAll "|" raw)); [congruence | reflexivity]. }
  split; [exact Hchar|].
  intros Hin. apply Hchar in Hin. destruct Hin as ((raw & _ & ->) & _ & _). split.
  - unfold trim. apply trimEnd_contains, trimStart_contains, removeAll_contains.
  - apply trim_idempotent.
Qed.

Lemma lines_retained_witness :
  In Sheets.janeRow (lines Sheets.jane) /\
  contains "|" Sheets.janeRow = false /\ trim Sheets.janeRow = Sheets.janeRow.
Proof.
  destruct (lines_retained Sheets.jane Sheets.janeRow) as [[_ Hkept] Hclean].
  assert (H : In Sheets.janeRow (lines Sheets.jane)).
  { apply Hkept. split; [|split].
    - exists Sheets.janeRow. split; [vm_compute; right; left; reflexivity | reflexivity].
    - discriminate.
    - reflexivity. }
  split; [exact H | exact (Hclean H)].
Defined.

(** C7, as stated, fails: a line that begins with a dash and carries a
    full data row is neither blank nor purely dashes, yet it is
    discarded, and the sheet yields the other row only. *)
Lemma dashed_row_discarded :
  In Sheets.dashedRow (split "010" Sheets.dashed) /\
  isEmpty (cleanLine Sheets.dashedRow) = false /\
  pureDashes (cleanLine Sheets.dashedRow) = false /\
  7 <= List.length (columnsOf (cleanLine Sheets.dashedRow)) /\
  ~ In (cleanLine Sheets.dashedRow) (lines Sheets.dashed) /\
  map indexNo (match parseResultText Sheets.dashed "1" "1" with
               | Returns results => results
               | Throws _ => []
               end) = ["20/COM/006"].
Proof.
  refine (conj _ (conj _ (conj _ (conj _ (conj _ _))))).
  - vm_compute. right. left. reflexivity.
  - reflexivity.
  - reflexivity.
  - vm_compute. lia.
  - vm_compute. intros [H|[H|[]]]; discriminate H.
  - vm_compute. reflexivity.
Qed.

(** ** Course codes and credit hours *)

Lemma columnsOf_nonempty (line h : string) : In h (columnsOf line) -> isEmpty h = false.
Proof.
  unfold columnsOf. rewrite filter_In. intros [_ H].
  destruct h; [discriminate H | reflexivity].
Qed.

Lemma courseCodeAt_header (line semester year : string) (j : nat) :
  courseCodeAt (columnsOf line) semester year j = codeOfColumn (columnsOf line) semester year j.
Proof.
  unfold courseCodeAt, codeOfColumn.
  destruct (nth_error (columnsOf line) j) as [h|] eqn:E; [|reflexivity].
  apply nth_error_In in E. now rewrite (columnsOf_nonempty _ _ E).
Qed.

Lemma creditHoursOf_digit (courseCode : string) : creditHoursOf courseCode = hoursOfCode courseCode.
Proof.
  unfold creditHoursOf, hoursOfCode, parseIntAt.
  destruct (String.get 3 courseCode) as [c|]; [|reflexivity].
  destruct c as [[] [] [] [] [] [] [] []]; reflexivity.
Qed.

(** C8 (as the code has it): the course at position [k] of a returned
    result carries the header token of column [k + 2], or the
    synthesized code when the header has no token there; its credit
    hours are the value of the code's fourth character when that is one
    of the digits 1 to 9, and 2 otherwise. *)
Theorem course_code_and_hours (text semester year : string)
    (results : list SemesterResult) (r : SemesterResult) (k : nat) (c : Course) :
  parseResultText text semester year = Returns results ->
  In r results ->
  nth_error (courses r) k = Some c ->
  code c = codeOfColumn (columnsOf (nth 0 (lines text) EmptyString)) semester year (k + 2) /\
  creditHours c = hoursOfCode (code c).
Proof.
  intros Hparse Hin Hk.
  destruct (parse_returns _ _ _ _ _ Hparse Hin) as (line & _ & Hbuilt).
  destruct Hbuilt as (_ & _ & _ & _ & _ & Hc & _ & _).
  rewrite Hc in Hk.
  assert (Hcase : k < 5 /\
    c = courseAt (columnsOf (nth 0 (lines text) EmptyString)) (columnsOf line)
          semester year (k + 2)).
  { do 5 (destruct k as [|k]; [simpl in Hk; injection Hk as <-; split; [lia | reflexivity]|]).
    simpl in Hk. destruct k; discriminate Hk. }
  destruct Hcase as [_ ->]. cbn [code creditHours courseAt]. split.
  - apply courseCodeAt_header.
  - apply creditHoursOf_digit.
Qed.

Lemma course_code_and_hours_witness :
  exists r,
    parseResultText Sheets.bordered "2" "1" = Returns [r] /\
    map (fun c => (code c, creditHours c)) (courses r) =
      [("CO131", 3%Z); ("CO102", 2%Z); ("CO1", 2%Z); ("CO1255", 2%Z); ("CO1266", 2%Z)] /\
    forall k c, nth_error (courses r) k = Some c ->
      code c = codeOfColumn (columnsOf (nth 0 (lines Sheets.bordered) EmptyString)) "2" "1" (k + 2) /\
      creditHours c = hoursOfCode (code c).
Proof.
  destruct (parseResultText Sheets.bordered "2" "1") as [[|r [|r' rest]]|e] eqn:E;
    try (vm_compute in E; discriminate E).
  exists r. split; [reflexivity|]. split.
  - vm_compute in E. injection E as <-. reflexivity.
  - intros k c Hk.
    exact (course_code_and_hours Sheets.bordered "2" "1" [r] r k c E (or_introl eq_refl) Hk).
Defined.

(** C8, as stated, fails on the digit 0: the code [CO102] has the
    numeric fourth character [0], whose integer value is 0, and the
    course gets 2 credit hours. *)
Lemma zero_digit_defaults_to_two :
  exists r c,
    parseResultText Sheets.bordered "2" "1" = Returns [r] /\
    nth_error (courses r) 1 = Some c /\
    code c = "CO102" /\
    option_map decimalDigit (String.get 3 (code c)) = Some (Some 0%Z) /\
    creditHours c = 2%Z.
Proof.
  destruct (parseResultText Sheets.bordered "2" "1") as [[|r [|r' rest]]|e] eqn:E;
    try (vm_compute in E; discriminate E).
  vm_compute in E. injection E as <-.
  eexists. eexists. split; [reflexivity|]. split; [reflexivity|].
  repeat split.
Qed.

End ParserFacts.

(** * Properties of the aggregator *)

Module AggregatorFacts.

Import JS Aggregator.

(** ** Enumeration order of properties *)

Section EntriesFacts.

Context {K V W : Type} (index : K -> option N) (f : V -> W).

Lemma insertIndexed_map (i : N) (e : K * V) (l : list (N * (K * V))) :
  insertIndexed i (fst e, f (snd e)) (map (fun p => (fst p, (fst (snd p), f (snd (snd p))))) l) =
  map (fun p => (fst p, (fst (snd p), f (snd (snd p))))) (insertIndexed i e l).
Proof.
  induction l as [|[j e'] t IH]; simpl; [reflexivity|].
  destruct (i <? j)%N; simpl; [reflexivity|]. now rewrite IH.
Qed.

Lemma indexedEntries_map (o : list (K * V)) :
  indexedEntries index (mapValues f o) =
  map (fun p => (fst p, (fst (snd p), f (snd (snd p))))) (indexedEntries index o).
Proof.
  induction o as [|e t IH]; simpl; [reflexivity|].
  destruct (index (fst e)); [|exact IH].
  rewrite IH. apply insertIndexed_map.
Qed.

Lemma namedEntries_map (o : list (K * V)) :
  namedEntries index (mapValues f o) = mapValues f (namedEntries index o).
Proof.
  induction o as [|e t IH]; simpl; [reflexivity|].
  destruct (index (fst e)); simpl; [exact IH|]. now rewrite <- IH.
Qed.

(** Transforming the values does not change the enumeration order. *)
Lemma entries_mapValues (o : list (K * V)) :
  entries index (mapValues f o) = mapValues f (entries index o).
Proof.
  unfold entries. rewrite indexedEntries_map, namedEntries_map.
  unfold mapValues. rewrite map_app, !map_map. reflexivity.
Qed.

End EntriesFacts.

Section EntriesMembers.

Context {K V : Type} (index : K -> option N).

Lemma insertIndexed_In (i : N) (e x : K * V) (l : list (N * (K * V))) :
  In x (map snd (insertIndexed i e l)) <-> x = e \/ In x (map snd l).
Proof.
  induction l as [|[j e'] t IH]; simpl.
  - intuition.
  - destruct (i <? j)%N; simpl; [intuition|]. rewrite IH. intuition.
Qed.

Lemma indexedEntries_In (x : K * V) (o : list (K * V)) :
  In x (map snd (indexedEntries index o)) <-> In x o /\ index (fst x) <> None.
Proof.
  induction o as [|e t IH]; simpl.
  - tauto.
  - destruct (index (fst e)) eqn:E.
    + rewrite insertIndexed_In, IH. split.
      * intros [->|[H1 H2]]; [split; [now left | congruence] | split; [now right | exact H2]].
      * intros [[->|H1] H2]; [now left | right; now split].
    + rewrite IH. split.
      * intros [H1 H2]. split; [now right | exact H2].
      * intros [[->|H1] H2]; [congruence | now split].
Qed.

(** The enumeration lists exactly the own properties. *)
Lemma entries_In (x : K * V) (o : list (K * V)) : In x (entries index o) <-> In x o.
Proof.
  unfold entries, namedEntries. rewrite in_app_iff, indexedEntries_In, filter_In.
  destruct (index (fst x)); split; intros H.
  - destruct H as [[H _]|[_ H]]; [exact H | discriminate H].
  - left. split; [exact H | discriminate].
  - destruct H as [[_ H]|[H _]]; [congruence | exact H].
  - right. now split.
Qed.

End EntriesMembers.

(** ** The aggregate reads [year] and [semesterGPA] only *)

Section Preserving.

Variable h : Result -> Result.
Hypothesis h_year : forall r, year (h r) = year r.
Hypothesis h_gpa : forall r, semesterGPA (h r) = semesterGPA r.

Lemma hasYear_mapValues (y : Z) (byYear : list (Z * list Result)) :
  hasYear y (mapValues (map h) byYear) = hasYear y byYear.
Proof.
  unfold hasYear, mapValues. induction byYear as [|e t IH]; simpl; [reflexivity|].
  now rewrite IH.
Qed.

Lemma pushYear_mapValues (y : Z) (r : Result) (byYear : list (Z * list Result)) :
  pushYear y (h r) (mapValues (map h) byYear) = mapValues (map h) (pushYear y r byYear).
Proof.
  unfold mapValues. induction byYear as [|[y' rs] t IH]; simpl; [reflexivity|].
  destruct (y =? y')%Z; simpl.
  - now rewrite map_app.
  - now rewrite IH.
Qed.

Lemma yearStep_mapValues (byYear : list (Z * list Result)) (r : Result) :
  yearStep (mapValues (map h) byYear) (h r) = mapValues (map h) (yearStep byYear r).
Proof.
  unfold yearStep. rewrite h_year, hasYear_mapValues.
  destruct (hasYear (year r) byYear).
  - apply pushYear_mapValues.
  - rewrite <- pushYear_mapValues. f_equal. unfold mapValues. now rewrite map_app.
Qed.

Lemma resultsByYear_from (rs : list Result) (byYear : list (Z * list Result)) :
  fold_left yearStep (map h rs) (mapValues (map h) byYear) =
  mapValues (map h) (fold_left yearStep rs byYear).
Proof.
  revert byYear. induction rs as [|r rs IH]; intros byYear; simpl; [reflexivity|].
  now rewrite yearStep_mapValues, IH.
Qed.

Lemma resultsByYear_map (rs : list Result) :
  resultsByYear (map h rs) = mapValues (map h) (resultsByYear rs).
Proof. exact (resultsByYear_from rs []). Qed.

Lemma sum_map (rs : list Result) (acc : float) :
  fold_left (fun sum r => sum + semesterGPA r)%float (map h rs) acc =
  fold_left (fun sum r => sum + semesterGPA r)%float rs acc.
Proof.
  revert acc. induction rs as [|r rs IH]; intros acc; simpl; [reflexivity|].
  now rewrite h_gpa, IH.
Qed.

Lemma yearMean_map (rs : list Result) : yearMean (map h rs) = yearMean rs.
Proof. unfold yearMean. now rewrite sum_map, length_map. Qed.

Lemma gpaLoop_map (l : list (Z * list Result)) (st : YearLoop) :
  fold_left gpaStep (mapValues (map h) l) st = fold_left gpaStep l st.
Proof.
  revert st. induction l as [|e l IH]; intros st; simpl; [reflexivity|].
  rewrite <- IH. f_equal. unfold gpaStep. simpl. now rewrite yearMean_map.
Qed.

(** Documents that differ outside [year] and [semesterGPA] have the
    same aggregate. *)
Lemma studentAggregate_map (rs : list Result) :
  studentAggregate (map h rs) = studentAggregate rs.
Proof.
  unfold studentAggregate.
  now rewrite resultsByYear_map, entries_mapValues, gpaLoop_map.
Qed.

End Preserving.

Lemma bare_gpaPair (rs : list Result) :
  map (fun r => bare (gpaPair r)) rs = map bare (map gpaPair rs).
Proof. now rewrite map_map. Qed.

(** The aggregate is a function of the sequence of (year, semesterGPA)
    pairs. *)
Lemma studentAggregate_pairs (rs1 rs2 : list Result) :
  map gpaPair rs1 = map gpaPair rs2 -> studentAggregate rs1 = studentAggregate rs2.
Proof.
  intros H.
  rewrite <- (studentAggregate_map (fun r => bare (gpaPair r))) by reflexivity.
  rewrite <- (studentAggregate_map (fun r => bare (gpaPair r)) (fun _ => eq_refl)
                (fun _ => eq_refl) rs2).
  now rewrite !bare_gpaPair, H.
Qed.

(** ** The loop over the years *)

Lemma gpaLoop_fields (l : list (Z * list Result)) (st : YearLoop) :
  let st' := fold_left gpaStep l st in
  yearGPAs st' = yearGPAs st ++ map (fun e => (fst e, toFixed2 (yearMean (snd e)))) l /\
  totalYearGPA st' =
    fold_left (fun sum x => sum + x)%float (map (fun e => yearMean (snd e)) l) (totalYearGPA st) /\
  yearCount st' =
    fold_left (fun count _ => count + 1)%float (map (fun e => yearMean (snd e)) l) (yearCount st).
Proof.
  revert st. induction l as [|e l IH]; intros st; simpl.
  - now rewrite app_nil_r.
  - destruct (IH (gpaStep st e)) as (Hy & Ht & Hc). simpl in Hy, Ht, Hc.
    rewrite Hy, Ht, Hc, <- app_assoc. repeat split.
Qed.

(** The final average is the rounded mean of the unrounded year means;
    the stored year values are the year means rounded one by one. *)
Lemma studentAggregate_fields (rs : list Result) :
  finalGPA (studentAggregate rs) = toFixed2 (mean (yearMeans rs)) /\
  map snd (yearGPA (studentAggregate rs)) = map toFixed2 (yearMeans rs) /\
  map fst (yearGPA (studentAggregate rs)) = map fst (entries numberIndex (resultsByYear rs)) /\
  finalClass (studentAggregate rs) = classify (finalGPA (studentAggregate rs)).
Proof.
  unfold studentAggregate, mean, yearMeans. cbn [finalGPA yearGPA finalClass].
  destruct (gpaLoop_fields (entries numberIndex (resultsByYear rs))
              {| yearGPAs := []; totalYearGPA := 0; yearCount := 0 |}) as (Hy & Ht & Hc).
  cbn [yearGPAs totalYearGPA yearCount app] in Hy, Ht, Hc.
  rewrite Hy, Ht, Hc, !map_map. repeat split.
Qed.

(** ** Grouping by student *)

Lemma lookupOwn_absent {V : Type} (k : string) (o : list (string * V)) :
  lookupOwn k o = None <-> ~ In k (map fst o).
Proof. apply ParserFacts.lookupOwn_None. Qed.

Lemma lookupOwn_app_new {V : Type} (s k : string) (v : V) (o : list (string * V)) :
  lookupOwn k o = None ->
  lookupOwn s (o ++ [(k, v)]) = if String.eqb s k then Some v else lookupOwn s o.
Proof.
  induction o as [|[k' w] t IH]; simpl; intros Hk.
  - destruct (String.eqb s k); reflexivity.
  - destruct (String.eqb_spec k k') as [->|Hne]; [discriminate Hk|].
    destruct (String.eqb_spec s k') as [->|Hs].
    + destruct (String.eqb_spec k' k) as [->|_]; [congruence | reflexivity].
    + now apply IH.
Qed.

Lemma lookupOwn_pushResult (s k : string) (r : Result) (o : list (string * Student)) :
  lookupOwn s (pushResult k r o) =
  if String.eqb s k then option_map (pushed r) (lookupOwn k o) else lookupOwn s o.
Proof.
  induction o as [|[k' st] t IH]; simpl.
  - destruct (String.eqb s k); reflexivity.
  - destruct (String.eqb_spec k k') as [->|Hne]; simpl.
    + destruct (String.eqb_spec s k'); reflexivity.
    + rewrite IH. destruct (String.eqb_spec s k') as [->|Hs].
      * destruct (String.eqb_spec k' k) as [->|_]; [congruence | reflexivity].
      * reflexivity.
Qed.

Lemma pushResult_keys (k : string) (r : Result) (o : list (string * Student)) :
  map fst (pushResult k r o) = map fst o.
Proof.
  induction o as [|[k' st] t IH]; simpl; [reflexivity|].
  destruct (String.eqb k k'); simpl; [reflexivity | now rewrite IH].
Qed.

Lemma groupStep_None (students : list (string * Student)) (r : Result) :
  groupStep students r = None <->
  lookupOwn (indexNo r) students = None /\ inherited (indexNo r) = true.
Proof.
  unfold groupStep, hasMember.
  destruct (lookupOwn (indexNo r) students) as [st|] eqn:E.
  - rewrite E. split; [discriminate | intros [H _]; discriminate H].
  - destruct (inherited (indexNo r)).
    + rewrite E. tauto.
    + rewrite lookupOwn_app_new, String.eqb_refl by exact E.
      split; [discriminate | intros [_ H]; discriminate H].
Qed.

Lemma groupStep_groupOf (students students' : list (string * Student)) (r : Result) (s : string) :
  groupStep students r = Some students' ->
  groupOf s students' =
  if String.eqb (indexNo r) s then joinGroup (groupOf s students) [r] else groupOf s students.
Proof.
  unfold groupStep, hasMember, groupOf.
  destruct (lookupOwn (indexNo r) students) as [st|] eqn:E.
  - rewrite E. intros [= <-]. rewrite lookupOwn_pushResult.
    rewrite (String.eqb_sym s). destruct (String.eqb_spec (indexNo r) s) as [<-|Hne]; [|reflexivity].
    rewrite E. reflexivity.
  - destruct (inherited (indexNo r)); [rewrite E; discriminate|].
    rewrite lookupOwn_app_new, String.eqb_refl by exact E.
    intros [= <-]. rewrite lookupOwn_pushResult, lookupOwn_app_new by exact E.
    rewrite String.eqb_refl, (String.eqb_sym s).
    destruct (String.eqb_spec (indexNo r) s) as [<-|Hne].
    + rewrite E. reflexivity.
    + rewrite lookupOwn_app_new by exact E.
      destruct (String.eqb_spec s (indexNo r)); [congruence | reflexivity].
Qed.

Lemma groupStep_keys (students students' : list (string * Student)) (r : Result) :
  groupStep students r = Some students' ->
  map fst students' = map fst students \/
  (map fst students' = map fst students ++ [indexNo r] /\
   ~ In (indexNo r) (map fst students) /\ inherited (indexNo r) = false).
Proof.
  unfold groupStep, hasMember.
  destruct (lookupOwn (indexNo r) students) as [st|] eqn:E.
  - rewrite E. intros [= <-]. left. apply pushResult_keys.
  - destruct (inherited (indexNo r)) eqn:Hi; [rewrite E; discriminate|].
    rewrite lookupOwn_app_new, String.eqb_refl by exact E.
    intros [= <-]. right. rewrite pushResult_keys, map_app. simpl.
    repeat split. now apply lookupOwn_absent.
Qed.

Lemma groupStep_keysOk (students students' : list (string * Student)) (r : Result) :
  keysOk students -> groupStep students r = Some students' -> keysOk students'.
Proof.
  intros [Hnd Hinh] H. apply groupStep_keys in H. unfold keysOk.
  destruct H as [->|(-> & Hnew & Hk)]; [now split|]. split.
  - apply NoDup_app; [exact Hnd | repeat constructor; intros [] | ].
    intros k Hk1 [<-|[]]. now apply Hnew.
  - intros k Hin. apply in_app_iff in Hin. destruct Hin as [Hin|[<-|[]]]; auto.
Qed.

Lemma joinGroup_cons (g : option (list Result)) (r : Result) (l : list Result) :
  joinGroup (joinGroup g [r]) l = joinGroup g (r :: l).
Proof.
  destruct g as [rs|], l as [|x l]; simpl; try reflexivity.
  now rewrite <- app_assoc.
Qed.

Lemma groupLoop_groupOf (rs : list Result) (students students' : list (string * Student)) (s : string) :
  groupLoop rs students = Some students' ->
  groupOf s students' = joinGroup (groupOf s students) (recordsOf s rs).
Proof.
  revert students. induction rs as [|r rs IH]; intros students; simpl.
  - now intros [= <-].
  - destruct (groupStep students r) as [students1|] eqn:E; [|discriminate].
    intros H. rewrite (IH _ H), (groupStep_groupOf _ _ _ s E).
    destruct (String.eqb (indexNo r) s); [apply joinGroup_cons | reflexivity].
Qed.

Lemma groupLoop_keysOk (rs : list Result) (students students' : list (string * Student)) :
  keysOk students -> groupLoop rs students = Some students' -> keysOk students'.
Proof.
  revert students. induction rs as [|r rs IH]; intros students Hok; simpl.
  - now intros [= <-].
  - destruct (groupStep students r) as [students1|] eqn:E; [|discriminate].
    apply IH. eapply groupStep_keysOk; eassumption.
Qed.

Lemma groupLoop_completes (rs : list Result) (students : list (string * Student)) :
  (forall r, In r rs -> inherited (indexNo r) = false) ->
  exists students', groupLoop rs students = Some students'.
Proof.
  revert students. induction rs as [|r rs IH]; intros students H; simpl.
  - now exists students.
  - destruct (groupStep students r) as [students1|] eqn:E.
    + apply IH. intros r' Hr'. apply H. now right.
    + apply groupStep_None in E. destruct E as [_ E].
      rewrite (H r (or_introl eq_refl)) in E. discriminate E.
Qed.

Lemma groupLoop_not_inherited (rs : list Result) (students students' : list (string * Student)) :
  keysOk students -> groupLoop rs students = Some students' ->
  forall r, In r rs -> inherited (indexNo r) = false.
Proof.
  revert students. induction rs as [|r rs IH]; intros students Hok; simpl.
  - intros _ r [].
  - destruct (groupStep students r) as [students1|] eqn:E; [|discriminate].
    intros H r' [<-|Hin].
    + destruct (inherited (indexNo r)) eqn:Hi; [|reflexivity].
      destruct (lookupOwn (indexNo r) students) as [st|] eqn:El.
      * destruct Hok as [_ Hinh]. rewrite <- Hi. apply Hinh.
        destruct (in_dec string_dec (indexNo r) (map fst students)) as [Hk|Hk]; [exact Hk|].
        apply lookupOwn_absent in Hk. congruence.
      * assert (groupStep students r = None) by (apply groupStep_None; now split). congruence.
    + eapply IH; [eapply groupStep_keysOk; eassumption | exact H | exact Hin].
Qed.

Lemma keysOk_nil : keysOk [].
Proof. split; [constructor | intros k []]. Qed.

(** The grouping completes exactly when no document is filed under the
    name of an inherited member. *)
Lemma grouping_completes (store : list Result) :
  groupLoop store [] <> None <-> forall r, In r store -> inherited (indexNo r) = false.
Proof.
  split.
  - destruct (groupLoop store []) as [students|] eqn:E; [|congruence].
    intros _. exact (groupLoop_not_inherited _ _ _ keysOk_nil E).
  - intros H. destruct (groupLoop_completes store [] H) as [students ->]. discriminate.
Qed.

Lemma groupOf_run (store : list Result) (students : list (string * Student)) (s : string) :
  groupLoop store [] = Some students ->
  groupOf s students = match recordsOf s store with [] => None | l => Some l end.
Proof.
  intros H. rewrite (groupLoop_groupOf _ _ _ s H). simpl.
  destruct (recordsOf s store); reflexivity.
Qed.

(** What a run whose grouping completes computes for a student: the
    aggregate of its documents in store order; nothing for a student
    without documents. *)
Lemma aggregateOf_run (store : list Result) (s : string) :
  groupLoop store [] <> None ->
  aggregateOf store s =
  match recordsOf s store with
  | [] => None
  | l => Some (studentAggregate l)
  end.
Proof.
  unfold aggregateOf.
  destruct (groupLoop store []) as [students|] eqn:E; [|congruence].
  intros _. pose proof (groupOf_run _ _ s E) as H. unfold groupOf in H.
  destruct (lookupOwn s students) as [st|]; simpl in H.
  - destruct (recordsOf s store); [discriminate H | now injection H as ->].
  - destruct (recordsOf s store); [reflexivity | discriminate H].
Qed.

(** ** The updates *)

(** The update hands an object to a path declared a Number: it is
    rejected, whatever the student and the store. *)
Lemma updateMany_rejects (k : string) (a : Aggregate) (store : list Result) :
  updateMany k a store = None.
Proof. reflexivity. Qed.

(** The loop ends in the first update, with nothing written. *)
Lemma updateLoop_run (students : list (string * Student)) (store : list Result) :
  updateLoop students store =
  (match students with
   | [] => Calculated
   | _ :: _ => CalculationFailed YearGPACast
   end, store).
Proof. destruct students as [|e rest]; reflexivity. Qed.

(** However a run ends, the store is as it was. *)
Lemma run_writes_nothing (store : list Result) : snd (recalculateAll store) = store.
Proof.
  unfold recalculateAll. destruct (groupLoop store []) as [students|]; [|reflexivity].
  now rewrite updateLoop_run.
Qed.

Lemma recordsOf_self (store : list Result) (r : Result) :
  In r store -> In r (recordsOf (indexNo r) store).
Proof.
  intros H. unfold recordsOf. apply filter_In. split; [exact H | apply String.eqb_refl].
Qed.

Lemma recordsOf_map (h : Result -> Result) (s : string) (store : list Result) :
  (forall r, indexNo (h r) = indexNo r) ->
  recordsOf s (map h store) = map h (recordsOf s store).
Proof.
  intros Hh. unfold recordsOf. induction store as [|r store IH]; simpl; [reflexivity|].
  rewrite Hh. destruct (String.eqb (indexNo r) s); simpl; now rewrite IH.
Qed.

Lemma aggregateOf_completes (store : list Result) (s : string) (a : Aggregate) :
  aggregateOf store s = Some a -> groupLoop store [] <> None.
Proof.
  unfold aggregateOf.
  destruct (groupLoop store []); [discriminate | discriminate].
Qed.

Lemma aggregateOf_Some (store : list Result) (s : string) (a : Aggregate) :
  aggregateOf store s = Some a -> a = studentAggregate (recordsOf s store).
Proof.
  intros H. pose proof (aggregateOf_completes _ _ _ H) as Hc.
  rewrite (aggregateOf_run _ s Hc) in H.
  destruct (recordsOf s store); [discriminate H | now injection H].
Qed.

(** ** The final average *)

(** C3 (as the code has it): the final GPA of a student is the mean of
    the per-year means as they are before rounding, rounded to two
    decimals; the stored per-year values are those means rounded one by
    one, and they do not enter the final average. *)
Theorem finalGPA_rounds_mean_of_year_means (store : list Result) (s : string) (a : Aggregate) :
  aggregateOf store s = Some a ->
  finalGPA a = toFixed2 (mean (yearMeans (recordsOf s store))) /\
  map snd (yearGPA a) = map toFixed2 (yearMeans (recordsOf s store)).
Proof.
  intros H. apply aggregateOf_Some in H. subst a.
  destruct (studentAggregate_fields (recordsOf s store)) as (Hf & Hy & _ & _).
  now split.
Qed.

Lemma finalGPA_rounds_mean_of_year_means_witness :
  exists a,
    aggregateOf Stores.example "20/COM/001" = Some a /\
    yearGPA a = [(1%Z, 3.5%float); (2%Z, 3.3%float)] /\
    finalGPA a = 3.4%float /\
    finalGPA a = toFixed2 (mean (yearMeans (recordsOf "20/COM/001" Stores.example))).
Proof.
  destruct (aggregateOf Stores.example "20/COM/001") as [a|] eqn:E;
    [|vm_compute in E; discriminate E].
  exists a. split; [reflexivity|].
  destruct (finalGPA_rounds_mean_of_year_means Stores.example "20/COM/001" a E) as [Hf _].
  vm_compute in E. injection E as <-.
  split; [reflexivity|]. split; [reflexivity | exact Hf].
Defined.

(** The semester GPAs of the store [Stores.rounding] are those the
    parser returns for the three sheets. *)
Lemma rounding_parsed :
  Sheets.gpas Sheets.yearOne "1" "1" ++ Sheets.gpas Sheets.yearTwo "1" "2" ++
  Sheets.gpas Sheets.yearThree "1" "3" = map semesterGPA Stores.rounding.
Proof. vm_compute. reflexivity. Qed.

(** C3, as stated, fails: with the year means 43.9/12, 45.7/12 and
    43.4/12 (3.6583, 3.8083, 3.6167) the stored year values are 3.66,
    3.81 and 3.62, whose mean 3.6967 rounds to 3.70, first class; the
    handler averages the unrounded means, 3.6944, and stores 3.69,
    second upper class. *)
Lemma finalGPA_not_mean_of_rounded :
  exists a,
    aggregateOf Stores.rounding "20/COM/008" = Some a /\
    map snd (yearGPA a) = [3.66; 3.81; 3.62]%float /\
    finalGPA a = 3.69%float /\
    finalClass a = "Second Upper Class" /\
    finalGPA_of_rounded (recordsOf "20/COM/008" Stores.rounding) = 3.7%float /\
    classify (finalGPA_of_rounded (recordsOf "20/COM/008" Stores.rounding)) = "First Class" /\
    finalGPA a <> finalGPA_of_rounded (recordsOf "20/COM/008" Stores.rounding).
Proof.
  eexists. split; [vm_compute; reflexivity|]. cbn [yearGPA finalGPA finalClass].
  split; [reflexivity|]. split; [reflexivity|]. split; [reflexivity|].
  split; [vm_compute; reflexivity|]. split; [vm_compute; reflexivity|].
  intros H. apply (f_equal classify) in H. vm_compute in H. discriminate H.
Qed.

(** ** Classification *)

(** C5: the class is decided on the rounded final GPA by the chain of
    inclusive lower bounds 3.7, 3.3 and 3.0, the first that holds
    winning; a final GPA of exactly 3.7 is first class and 3.69 is
    second upper. *)
Theorem classification_thresholds (store : list Result) (s : string) (a : Aggregate) :
  aggregateOf store s = Some a ->
  finalGPA a = toFixed2 (mean (yearMeans (recordsOf s store))) /\
  finalClass a =
    (if PrimFloat.leb 3.7 (finalGPA a) then "First Class"
     else if PrimFloat.leb 3.3 (finalGPA a) then "Second Upper Class"
     else if PrimFloat.leb 3.0 (finalGPA a) then "Second Lower Class"
     else "Just Pass") /\
  (finalGPA a = 3.7%float -> finalClass a = "First Class") /\
  (finalGPA a = 3.69%float -> finalClass a = "Second Upper Class").
Proof.
  intros H. apply aggregateOf_Some in H. subst a.
  destruct (studentAggregate_fields (recordsOf s store)) as (Hf & _ & _ & Hc).
  split; [exact Hf|]. split; [exact Hc|].
  split; intros E; rewrite Hc, E; reflexivity.
Qed.

Lemma classification_thresholds_witness :
  (exists a, aggregateOf Stores.boundary "a" = Some a /\
             finalGPA a = 3.7%float /\ finalClass a = "First Class") /\
  (exists b, aggregateOf Stores.boundary "b" = Some b /\
             finalGPA b = 3.69%float /\ finalClass b = "Second Upper Class").
Proof.
  split.
  - destruct (aggregateOf Stores.boundary "a") as [a|] eqn:E;
      [|vm_compute in E; discriminate E].
    destruct (classification_thresholds Stores.boundary "a" a E) as (_ & _ & Hfirst & _).
    assert (Hg : finalGPA a = 3.7%float) by (vm_compute in E; injection E as <-; reflexivity).
    exists a. split; [reflexivity|]. split; [exact Hg | exact (Hfirst Hg)].
  - destruct (aggregateOf Stores.boundary "b") as [b|] eqn:E;
      [|vm_compute in E; discriminate E].
    destruct (classification_thresholds Stores.boundary "b" b E) as (_ & _ & _ & Hupper).
    assert (Hg : finalGPA b = 3.69%float) by (vm_compute in E; injection E as <-; reflexivity).
    exists b. split; [reflexivity|]. split; [exact Hg | exact (Hupper Hg)].
Defined.

(** ** Running the aggregation twice *)

(** The answer of a run: 200 on the empty store only. *)
Lemma run_answer (store : list Result) :
  fst (recalculateAll store) =
  match groupLoop store [] with
  | None => CalculationFailed PushOnUndefined
  | Some _ =>
      match store with
      | [] => Calculated
      | _ :: _ => CalculationFailed YearGPACast
      end
  end.
Proof.
  unfold recalculateAll. destruct (groupLoop store []) as [students|] eqn:E; [|reflexivity].
  rewrite updateLoop_run. cbn [fst].
  destruct store as [|r store].
  - simpl in E. injection E as <-. reflexivity.
  - destruct (entries stringIndex students) as [|e l] eqn:Ee; [|reflexivity].
    exfalso.
    pose proof (groupOf_run _ _ (indexNo r) E) as Hg. unfold groupOf in Hg.
    pose proof (recordsOf_self (r :: store) r (or_introl eq_refl)) as Hself.
    destruct (lookupOwn (indexNo r) students) as [st|] eqn:El.
    + apply ParserFacts.lookupOwn_Some_In in El.
      apply (entries_In stringIndex) in El. rewrite Ee in El. destruct El.
    + destruct (recordsOf (indexNo r) (r :: store)); [destruct Hself | discriminate Hg].
Qed.

(** Documents changed outside [indexNo], [year] and [semesterGPA] give
    every student the same aggregate. *)
Lemma aggregateOf_map (h : Result -> Result) (store : list Result) (s : string) :
  (forall r, indexNo (h r) = indexNo r) ->
  (forall r, year (h r) = year r) ->
  (forall r, semesterGPA (h r) = semesterGPA r) ->
  aggregateOf (map h store) s = aggregateOf store s.
Proof.
  intros Hi Hy Hg.
  assert (Hiff : groupLoop (map h store) [] <> None <-> groupLoop store [] <> None).
  { rewrite !grouping_completes. split; intros H r Hin.
    - rewrite <- Hi. apply H. now apply in_map.
    - apply in_map_iff in Hin. destruct Hin as (r0 & <- & Hin). rewrite Hi. now apply H. }
  assert (Hcase : groupLoop store [] <> None \/ groupLoop store [] = None).
  { destruct (groupLoop store []); [left; discriminate | now right]. }
  destruct Hcase as [Hc|E].
  - rewrite (aggregateOf_run _ s (proj2 Hiff Hc)), (aggregateOf_run _ s Hc).
    rewrite (recordsOf_map h s store Hi).
    destruct (recordsOf s store) as [|r l] eqn:Er; [reflexivity|].
    change (map h (r :: l)) with (h r :: map h l).
    rewrite <- (studentAggregate_map h Hy Hg (r :: l)). reflexivity.
  - unfold aggregateOf. rewrite E.
    destruct (groupLoop (map h store) []) as [students'|] eqn:E'; [|reflexivity].
    exfalso. apply (proj1 Hiff); [congruence | exact E].
Qed.

(** Two stores that agree on the fields a run reads give every student
    the same aggregate. *)
Lemma aggregateOf_reads (store store' : list Result) (s : string) :
  map readFields store' = map readFields store ->
  aggregateOf store' s = aggregateOf store s.
Proof.
  intros H.
  rewrite <- (aggregateOf_map (fun r => skeleton (readFields r)) store' s),
          <- (aggregateOf_map (fun r => skeleton (readFields r)) store s);
    try reflexivity.
  rewrite <- (map_map readFields skeleton store'), <- (map_map readFields skeleton store).
  now rewrite H.
Qed.

(** C9: a second run over the store the first run left gives the same
    answer, leaves the same store and computes the same yearGPA,
    finalGPA and finalClass for every student.  A run reads [indexNo],
    [year] and [semesterGPA] only: the first run leaves these fields as
    they were, and stores that agree on them, whatever their aggregate
    fields hold, give every student the same aggregate. *)
Theorem recalculateAll_idempotent (store : list Result) :
  recalculateAll (snd (recalculateAll store)) = recalculateAll store /\
  map readFields (snd (recalculateAll store)) = map readFields store /\
  (forall s, aggregateOf (snd (recalculateAll store)) s = aggregateOf store s) /\
  (forall store',
     map readFields store' = map readFields store ->
     forall s, aggregateOf store' s = aggregateOf store s).
Proof.
  rewrite run_writes_nothing.
  split; [reflexivity|]. split; [reflexivity|]. split; [reflexivity|].
  intros store' H s. now apply aggregateOf_reads.
Qed.

Lemma recalculateAll_idempotent_witness :
  recalculateAll (snd (recalculateAll Stores.example)) = recalculateAll Stores.example /\
  (forall s, aggregateOf (snd (recalculateAll Stores.example)) s = aggregateOf Stores.example s) /\
  (forall s, aggregateOf Stores.aggregated s = aggregateOf Stores.example s).
Proof.
  destruct (recalculateAll_idempotent Stores.example) as (Hfix & _ & Hsame & Hreads).
  split; [exact Hfix|]. split; [exact Hsame|].
  apply Hreads. reflexivity.
Defined.

(** ** What an aggregate depends on *)

(** C10 (as the code has it): on two stores on which the grouping by
    student does not throw, a student whose documents show the same
    sequence of (year, semesterGPA) pairs, in store order, gets the
    same aggregate, whatever the other fields and the other students'
    documents are. *)
Theorem aggregate_depends_on_own_pairs (store1 store2 : list Result) (s : string) :
  groupLoop store1 [] <> None ->
  groupLoop store2 [] <> None ->
  map gpaPair (recordsOf s store1) = map gpaPair (recordsOf s store2) ->
  aggregateOf store1 s = aggregateOf store2 s.
Proof.
  intros H1 H2 Hpairs.
  rewrite (aggregateOf_run _ s H1), (aggregateOf_run _ s H2).
  pose proof (studentAggregate_pairs _ _ Hpairs) as Hagg.
  destruct (recordsOf s store1) as [|r1 l1], (recordsOf s store2) as [|r2 l2];
    try discriminate Hpairs; [reflexivity|].
  now rewrite Hagg.
Qed.

Lemma aggregate_depends_on_own_pairs_witness :
  aggregateOf Stores.example "20/COM/001" = aggregateOf Stores.renamed "20/COM/001".
Proof.
  apply aggregate_depends_on_own_pairs.
  - vm_compute. discriminate.
  - vm_compute. discriminate.
  - reflexivity.
Defined.

(** C10, as stated, fails twice.  The same four (year, semesterGPA)
    pairs in two orders give the final GPA 3.70 and first class in one
    store, 3.69 and second upper class in the other; and a document of
    another student, filed under the name of an inherited member, makes
    the whole run throw, so that the student gets no aggregate. *)
Lemma aggregate_depends_on_order :
  (Permutation (map gpaPair (recordsOf "a" Stores.forward))
               (map gpaPair (recordsOf "a" Stores.backward)) /\
   option_map finalClass (aggregateOf Stores.forward "a") = Some "First Class" /\
   option_map finalClass (aggregateOf Stores.backward "a") = Some "Second Upper Class" /\
   aggregateOf Stores.forward "a" <> aggregateOf Stores.backward "a") /\
  (recordsOf "a" Stores.alone = recordsOf "a" Stores.withInherited /\
   aggregateOf Stores.alone "a" <> None /\
   aggregateOf Stores.withInherited "a" = None).
Proof.
  split; [split; [|split; [|split]] | split; [|split]].
  - change (recordsOf "a" Stores.backward) with (rev (recordsOf "a" Stores.forward)).
    rewrite map_rev. apply Permutation_rev.
  - vm_compute. reflexivity.
  - vm_compute. reflexivity.
  - intros H. apply (f_equal (option_map finalClass)) in H. vm_compute in H. discriminate H.
  - reflexivity.
  - vm_compute. discriminate.
  - vm_compute. reflexivity.
Qed.

End AggregatorFacts.

(** * Further properties of the parser *)

Module ParserLaws.

Import JS Parser Rows.

(** ** Rows that are complete and accepted *)

Lemma rowAccepted_spec (line : string) :
  rowAccepted line = true <->
  forall i, 2 <= i < 7 -> falsy (member (gradeAt (columnsOf line) i) gradePoints) = false.
Proof.
  unfold rowAccepted. rewrite forallb_forall. split.
  - intros H i Hi. apply negb_true_iff. apply H. apply in_seq. lia.
  - intros H i Hi. apply in_seq in Hi. apply negb_true_iff. apply H. lia.
Qed.

Lemma validRow_spec (line : string) : validRow line = true <-> 7 <= List.length (columnsOf line).
Proof. unfold validRow. apply Nat.leb_le. Qed.

Lemma parseRow_accepted (headers : list string) (semester year line : string) :
  validRow line = true -> rowAccepted line = true ->
  parseRow headers semester year line = Returns (Some (rowResult headers semester year line)).
Proof.
  intros Hv Ha. apply validRow_spec in Hv. pose proof (proj1 (rowAccepted_spec line) Ha) as Hacc.
  destruct (ParserFacts.parseRow_accepts headers semester year line Hv Hacc) as [r Hr].
  rewrite Hr. do 2 f_equal.
  destruct (ParserFacts.parseRow_returns _ _ _ _ _ Hr) as (_ & Hi & Hn & Hs & Hy & Hc & Hg & _).
  destruct r as [i n s y c g]. cbn in Hi, Hn, Hs, Hy, Hc, Hg.
  unfold rowResult. subst i n s y c. rewrite Hg. reflexivity.
Qed.

Lemma parseRow_rejected (headers : list string) (semester year line : string) :
  validRow line = true -> rowAccepted line = false ->
  exists e, parseRow headers semester year line = Throws e.
Proof.
  intros Hv Ha. apply validRow_spec in Hv.
  destruct (parseRow headers semester year line) as [[r|]|e] eqn:E.
  - apply ParserFacts.parseRow_returns in E. destruct E as (_ & _ & _ & _ & _ & _ & _ & Hacc).
    apply rowAccepted_spec in Hacc. congruence.
  - unfold parseRow in E. destruct (Nat.leb_spec 7 (List.length (columnsOf line))); [|lia].
    destruct (courseLoop _ _ _ _ _ 2 5 _); discriminate E.
  - now exists e.
Qed.

Lemma parseRow_invalid (headers : list string) (semester year line : string) :
  validRow line = false -> parseRow headers semester year line = Returns None.
Proof.
  intros Hv. apply ParserFacts.parseRow_short.
  unfold validRow in Hv. apply Nat.leb_gt in Hv. exact Hv.
Qed.

Lemma rowLoop_app (headers : list string) (semester year : string)
    (before rest : list string) (acc : list SemesterResult) :
  (forall line, In line before -> validRow line = true -> rowAccepted line = true) ->
  rowLoop headers semester year (before ++ rest) acc =
  rowLoop headers semester year rest
    (acc ++ map (rowResult headers semester year) (filter validRow before)).
Proof.
  revert acc. induction before as [|l before IH]; intros acc H; simpl.
  - now rewrite app_nil_r.
  - destruct (validRow l) eqn:Hv.
    + rewrite parseRow_accepted by (auto using in_eq).
      rewrite IH by (intros; apply H; [now right | assumption]).
      simpl. now rewrite <- app_assoc.
    + rewrite parseRow_invalid by exact Hv.
      apply IH. intros; apply H; [now right | assumption].
Qed.

Lemma rowLoop_all_accepted (headers : list string) (semester year : string)
    (rest : list string) (acc results : list SemesterResult) :
  rowLoop headers semester year rest acc = Returns results ->
  forall line, In line rest -> validRow line = true -> rowAccepted line = true.
Proof.
  intros H line Hin Hv. destruct (rowAccepted line) eqn:Ha; [reflexivity|].
  destruct (parseRow_rejected headers semester year line Hv Ha) as [e He].
  destruct (ParserFacts.rowLoop_aborts headers semester year rest acc line e Hin He) as [e' He'].
  congruence.
Qed.

Lemma parse_returns_rows (text semester year : string) (results : list SemesterResult) :
  parseResultText text semester year = Returns results ->
  (forall line, In line (tl (lines text)) -> validRow line = true -> rowAccepted line = true) /\
  results = map (rowResult (columnsOf (nth 0 (lines text) EmptyString)) semester year)
                (filter validRow (tl (lines text))).
Proof.
  intros H.
  assert (Hlen : 2 <= List.length (lines text)).
  { unfold parseResultText in H.
    destruct (Nat.ltb_spec (List.length (lines text)) 2); [discriminate H | assumption]. }
  rewrite ParserFacts.parse_unfold in H by exact Hlen.
  pose proof (rowLoop_all_accepted _ _ _ _ _ _ H) as Hacc.
  split; [exact Hacc|].
  rewrite <- (app_nil_r (tl (lines text))) in H.
  rewrite rowLoop_app in H by exact Hacc. simpl in H. now injection H.
Qed.

(** X1: a parse returns exactly when at least two lines are left and
    every data line with seven or more columns has five accepted
    grades; what it returns is one result per such line, in line order,
    built from the header of the first line. *)
Theorem parse_returns_iff (text semester year : string) (results : list SemesterResult) :
  parseResultText text semester year = Returns results <->
  2 <= List.length (lines text) /\
  (forall line, In line (tl (lines text)) -> validRow line = true -> rowAccepted line = true) /\
  results = map (rowResult (columnsOf (nth 0 (lines text) EmptyString)) semester year)
                (filter validRow (tl (lines text))).
Proof.
  split.
  - intros H.
    assert (Hlen : 2 <= List.length (lines text)).
    { unfold parseResultText in H.
      destruct (Nat.ltb_spec (List.length (lines text)) 2); [discriminate H | assumption]. }
    rewrite ParserFacts.parse_unfold in H by exact Hlen.
    pose proof (rowLoop_all_accepted _ _ _ _ _ _ H) as Hacc.
    split; [exact Hlen|]. split; [exact Hacc|].
    rewrite <- (app_nil_r (tl (lines text))) in H.
    rewrite rowLoop_app in H by exact Hacc. simpl in H. now injection H.
  - intros (Hlen & Hacc & ->).
    rewrite ParserFacts.parse_unfold by exact Hlen.
    rewrite <- (app_nil_r (tl (lines text))) at 1.
    rewrite rowLoop_app by exact Hacc. reflexivity.
Qed.

Lemma parse_returns_iff_witness :
  exists results,
    parseResultText Sheets.bordered "2" "1" = Returns results /\
    List.length results = 1 /\
    results = map (rowResult (columnsOf (nth 0 (lines Sheets.bordered) EmptyString)) "2" "1")
                  (filter validRow (tl (lines Sheets.bordered))).
Proof.
  eexists. split; [|split; [|reflexivity]].
  - apply (parse_returns_iff Sheets.bordered "2" "1"). split; [vm_compute; lia|].
    split; [|reflexivity].
    intros line Hin Hv. vm_compute in Hin.
    destruct Hin as [<-|[<-|[]]]; [reflexivity | vm_compute in Hv; discriminate Hv].
  - reflexivity.
Defined.

(** ** The first refused grade *)

Lemma courseLoop_first (headers columns : list string) (semester year name : string)
    (n j i : nat) (st : RowState) :
  j <= i < j + n ->
  (forall k, j <= k < i -> falsy (member (gradeAt columns k) gradePoints) = false) ->
  falsy (member (gradeAt columns i) gradePoints) = true ->
  courseLoop headers columns semester year name j n st =
  Throws (InvalidGrade (gradeAt columns i) name).
Proof.
  revert j st. induction n as [|n IH]; intros j st Hi Hbefore Hrej; simpl; [lia|].
  unfold courseStep. destruct (Nat.eq_dec i j) as [->|Hne].
  - now rewrite Hrej.
  - rewrite (Hbefore j) by lia. apply IH; [lia | | exact Hrej].
    intros k Hk. apply Hbefore. lia.
Qed.

(** X2: the error names the first refused grade: the rows before it
    are skipped or accepted, and in its own row the columns to its left
    are accepted. *)
Theorem first_refused_grade_is_reported (text semester year : string)
    (before after : list string) (line : string) (i : nat) :
  tl (lines text) = before ++ line :: after ->
  (forall l, In l before -> validRow l = true -> rowAccepted l = true) ->
  validRow line = true ->
  2 <= i < 7 ->
  (forall j, 2 <= j < i -> falsy (member (gradeAt (columnsOf line) j) gradePoints) = false) ->
  falsy (member (gradeAt (columnsOf line) i) gradePoints) = true ->
  parseResultText text semester year =
  Throws (InvalidGrade (gradeAt (columnsOf line) i)
                       (trim (nth 1 (columnsOf line) EmptyString))).
Proof.
  intros Htl Hbefore Hv Hi Hleft Hrej.
  assert (Hlen : 2 <= List.length (lines text)).
  { apply (ParserFacts.tl_nonempty_length _ line). rewrite Htl. apply in_elt. }
  rewrite ParserFacts.parse_unfold, Htl, rowLoop_app by assumption.
  simpl. unfold parseRow. apply validRow_spec in Hv.
  destruct (Nat.leb_spec 7 (List.length (columnsOf line))); [|lia].
  rewrite (courseLoop_first _ _ _ _ _ 5 2 i) by (assumption || lia). reflexivity.
Qed.

Lemma first_refused_grade_is_reported_witness :
  parseResultText Sheets.withD "1" "2" = Throws (InvalidGrade "D" "Bob Poe").
Proof.
  apply (first_refused_grade_is_reported Sheets.withD "1" "2"
           ["20/COM/003  Ann Lee  A  A  B  B  C"] []
           "20/COM/004  Bob Poe  A  D  B  B  C" 3).
  - reflexivity.
  - intros l [<-|[]] _. reflexivity.
  - reflexivity.
  - lia.
  - intros j Hj. assert (j = 2) as -> by lia. reflexivity.
  - reflexivity.
Defined.

(** ** Rows without a wide gap *)

Lemma splitGaps_no_gap (s : string) : hasGap s = false -> splitGaps s = [s].
Proof.
  unfold splitGaps. induction s as [|c r IH]; simpl; [reflexivity|].
  intros H. apply orb_false_iff in H. destruct H as [Hc Hr].
  rewrite (IH Hr). destruct (isSpace c); [|reflexivity].
  simpl in Hc. now rewrite Hc.
Qed.

Lemma no_gap_invalid (line : string) : hasGap line = false -> validRow line = false.
Proof.
  intros H. unfold validRow, columnsOf. rewrite (splitGaps_no_gap _ H). simpl.
  destruct (negb (isEmpty (trim line))); reflexivity.
Qed.

(** X3: columns are told apart by gaps of two or more white-space
    characters only: a data line whose fields are separated by single
    spaces is one column, and is skipped without an error; a sheet whose
    data lines are all of that kind yields no result. *)
Theorem single_spaced_rows_are_skipped (text semester year : string) :
  2 <= List.length (lines text) ->
  (forall line, In line (tl (lines text)) -> hasGap line = false) ->
  (forall line, In line (tl (lines text)) ->
     parseRow (columnsOf (nth 0 (lines text) EmptyString)) semester year line = Returns None) /\
  parseResultText text semester year = Returns [].
Proof.
  intros Hlen Hgap.
  assert (Hrow : forall line, In line (tl (lines text)) -> validRow line = false)
    by (intros line Hin; apply no_gap_invalid, Hgap, Hin).
  split.
  - intros line Hin. apply parseRow_invalid, Hrow, Hin.
  - rewrite ParserFacts.parse_unfold by exact Hlen.
    apply ParserFacts.rowLoop_skips. intros line Hin.
    specialize (Hrow line Hin). unfold validRow in Hrow. now apply Nat.leb_gt in Hrow.
Qed.

Lemma single_spaced_rows_are_skipped_witness :
  parseResultText
    (Sheets.header ++ newline ++ "20/COM/001 Jane Doe A B+ C A- A+") "1" "1" = Returns [].
Proof.
  apply single_spaced_rows_are_skipped.
  - vm_compute. lia.
  - intros line Hin. vm_compute in Hin. destruct Hin as [<-|[]]. reflexivity.
Defined.

(** ** Credit hours *)

Lemma creditHoursOf_range (courseCode : string) : (1 <= creditHoursOf courseCode <= 9)%Z.
Proof.
  unfold creditHoursOf, parseIntAt.
  destruct (String.get 3 courseCode) as [c|]; [|lia].
  destruct c as [[] [] [] [] [] [] [] []];
    match goal with
    | |- (1 <= ?x <= 9)%Z => let v := eval vm_compute in x in change x with v
    end; lia.
Qed.

Lemma number_add_nat (a b : nat) :
  a <= 36 -> 1 <= b <= 9 ->
  (number (Z.of_nat a) + number (Z.of_nat b))%float = number (Z.of_nat (a + b)).
Proof.
  intros Ha Hb.
  do 37 (destruct a as [|a]; [do 10 (destruct b as [|b]; [first [lia | vm_compute; reflexivity]|]); lia|]).
  lia.
Qed.

Lemma number_add_small (a b : Z) :
  (0 <= a <= 36)%Z -> (1 <= b <= 9)%Z -> (number a + number b)%float = number (a + b).
Proof.
  intros Ha Hb.
  rewrite <- (Z2Nat.id a), <- (Z2Nat.id b), <- Nat2Z.inj_add by lia.
  apply number_add_nat; lia.
Qed.

Lemma hours_fold (cs : list Course) (acc : Z) :
  (forall c, In c cs -> (1 <= creditHours c <= 9)%Z) ->
  (0 <= acc)%Z -> (acc + 9 * Z.of_nat (List.length cs) <= 45)%Z ->
  fold_left (fun sum x => sum + x)%float (map (fun c => number (creditHours c)) cs) (number acc)
    = number (fold_left (fun sum c => (sum + creditHours c)%Z) cs acc) /\
  (acc + Z.of_nat (List.length cs) <= fold_left (fun sum c => (sum + creditHours c)%Z) cs acc
   <= acc + 9 * Z.of_nat (List.length cs))%Z.
Proof.
  revert acc. induction cs as [|c cs IH]; intros acc Hr Hacc Hb.
  - cbn. split; [reflexivity | lia].
  - assert (Hc : (1 <= creditHours c <= 9)%Z) by (apply Hr; now left).
    cbn [fold_left map]. change (List.length (c :: cs)) with (S (List.length cs)) in *.
    rewrite Nat2Z.inj_succ in *.
    rewrite number_add_small by lia.
    destruct (IH (acc + creditHours c)%Z) as [Hs Hbound];
      [intros c' Hin; apply Hr; now right | lia | lia |].
    split; [exact Hs | lia].
Qed.

(** X4: every course of a returned result has between 1 and 9 credit
    hours, and the divisor of its semester GPA is the exact total of the
    five, a Number between 5 and 45: the division is never by zero. *)
Theorem credit_hours_bounds (text semester year : string)
    (results : list SemesterResult) (r : SemesterResult) :
  parseResultText text semester year = Returns results ->
  In r results ->
  (forall c, In c (courses r) -> (1 <= creditHours c <= 9)%Z) /\
  (5 <= sumHours (courses r) <= 45)%Z /\
  semesterGPA r =
    (total (map qualityPoints (courses r)) / number (sumHours (courses r)))%float.
Proof.
  intros Hparse Hin.
  destruct (ParserFacts.parse_returns _ _ _ _ _ Hparse Hin) as (line & _ & Hbuilt).
  pose proof Hbuilt as (_ & _ & _ & _ & _ & Hc & Hg & _).
  assert (Hrange : forall c, In c (courses r) -> (1 <= creditHours c <= 9)%Z).
  { intros c Hcin. destruct (ParserFacts.builtFrom_courses _ _ _ _ _ _ Hbuilt Hcin) as (j & _ & ->).
    apply creditHoursOf_range. }
  assert (Hlen : List.length (courses r) = 5) by (rewrite Hc; reflexivity).
  destruct (hours_fold (courses r) 0 Hrange) as [Hsum Hbound]; [lia | rewrite Hlen; lia |].
  rewrite Hlen in Hbound. split; [exact Hrange|]. split; [exact Hbound|].
  rewrite Hg. unfold total. f_equal. exact Hsum.
Qed.

Lemma credit_hours_bounds_witness :
  exists r,
    parseResultText Sheets.yearOne "1" "1" = Returns [r] /\
    sumHours (courses r) = 12%Z /\
    semesterGPA r = (total (map qualityPoints (courses r)) / 12)%float.
Proof.
  destruct (parseResultText Sheets.yearOne "1" "1") as [[|r [|r' rest]]|e] eqn:E;
    try (vm_compute in E; discriminate E).
  exists r. split; [reflexivity|].
  destruct (credit_hours_bounds Sheets.yearOne "1" "1" [r] r E (or_introl eq_refl))
    as (_ & _ & Hg).
  assert (Hs : sumHours (courses r) = 12%Z) by (vm_compute in E; injection E as <-; reflexivity).
  split; [exact Hs|]. rewrite Hs in Hg. exact Hg.
Defined.

(** X5: where the header line has no token for a course column (one of
    the columns 2 to 6), the
    synthesized code puts the semester right after a one-character
    year, so the course gets the credit hours of the semester's first
    character: its value when that is a digit from 1 to 9, otherwise
    2. *)
Theorem fallback_hours_follow_semester (headers columns : list string)
    (y c : ascii) (rest : string) (j : nat) :
  2 <= j < 7 ->
  nth_error headers j = None ->
  let course := courseAt headers columns (String c rest) (String y EmptyString) j in
  code course = ("CO" ++ String y (String c rest) ++ digit j ++ digit j)%string /\
  creditHours course = match positiveDigit c with Some d => d | None => 2%Z end.
Proof.
  intros _ Hnone. cbn [courseAt code creditHours]. unfold courseCodeAt. rewrite Hnone.
  split; [reflexivity|].
  rewrite ParserFacts.creditHoursOf_digit. reflexivity.
Qed.

Lemma fallback_hours_follow_semester_witness :
  code (courseAt ["IndexNo"; "Name"] [] "1" "3" 2) = "CO3122" /\
  creditHours (courseAt ["IndexNo"; "Name"] [] "1" "3" 2) = 1%Z.
Proof.
  apply (fallback_hours_follow_semester ["IndexNo"; "Name"] [] "3" "1" EmptyString 2);
    [lia | reflexivity].
Defined.

(** ** Identifiers *)

Lemma column_trimmed_nonempty (line : string) (k : nat) :
  k < List.length (columnsOf line) ->
  trim (nth k (columnsOf line) EmptyString) <> EmptyString.
Proof.
  intros Hk. pose proof (nth_In (columnsOf line) EmptyString Hk) as Hin.
  unfold columnsOf in Hin at 2. apply filter_In in Hin. destruct Hin as [_ Hne].
  intros Habs. rewrite Habs in Hne. discriminate Hne.
Qed.

(** X6: every returned result carries a non-empty index number and a
    non-empty name, both without white space at either end, and the
    semester and year the parse was called with. *)
Theorem result_identifiers (text semester year : string)
    (results : list SemesterResult) (r : SemesterResult) :
  parseResultText text semester year = Returns results ->
  In r results ->
  indexNo r <> EmptyString /\ trim (indexNo r) = indexNo r /\
  name r <> EmptyString /\ trim (name r) = name r /\
  Parser.semester r = semester /\ Parser.year r = year.
Proof.
  intros Hparse Hin.
  destruct (ParserFacts.parse_returns _ _ _ _ _ Hparse Hin) as (line & _ & Hbuilt).
  destruct Hbuilt as (Hlen & Hi & Hn & Hs & Hy & _).
  rewrite Hi, Hn. repeat split; try assumption.
  - apply column_trimmed_nonempty. lia.
  - apply ParserFacts.trim_idempotent.
  - apply column_trimmed_nonempty. lia.
  - apply ParserFacts.trim_idempotent.
Qed.

Lemma result_identifiers_witness :
  exists r,
    parseResultText Sheets.bordered "2" "1" = Returns [r] /\
    indexNo r <> EmptyString /\ name r <> EmptyString /\
    Parser.semester r = "2" /\ Parser.year r = "1".
Proof.
  destruct (parseResultText Sheets.bordered "2" "1") as [[|r [|r' rest]]|e] eqn:E;
    try (vm_compute in E; discriminate E).
  exists r. split; [reflexivity|].
  destruct (result_identifiers Sheets.bordered "2" "1" [r] r E (or_introl eq_refl))
    as (Hi & _ & Hn & _ & Hs & Hy).
  repeat split; assumption.
Defined.

(** ** Table borders and line endings *)

Lemma split_nonempty (sep : ascii) (s : string) : split sep s <> [].
Proof.
  destruct s as [|c r]; simpl; [discriminate|].
  destruct (Ascii.eqb c sep); [discriminate|].
  destruct (split sep r); discriminate.
Qed.

Lemma removeAll_idempotent (x : ascii) (s : string) :
  removeAll x (removeAll x s) = removeAll x s.
Proof.
  induction s as [|c r IH]; simpl; [reflexivity|].
  destruct (Ascii.eqb c x) eqn:E; [exact IH|]. simpl. now rewrite E, IH.
Qed.

Lemma split_removeAll (sep x : ascii) (s : string) :
  Ascii.eqb x sep = false ->
  split sep (removeAll x s) = map (removeAll x) (split sep s).
Proof.
  intros Hx. induction s as [|c r IH]; simpl; [reflexivity|].
  destruct (Ascii.eqb_spec c x) as [->|Hcx].
  - rewrite Hx, IH. pose proof (split_nonempty sep r) as Hne.
    destruct (split sep r) as [|h t]; [congruence|]. simpl.
    now rewrite Ascii.eqb_refl.
  - simpl. destruct (Ascii.eqb c sep) eqn:Hcs; simpl; [now rewrite IH|].
    rewrite IH. pose proof (split_nonempty sep r) as Hne.
    destruct (split sep r) as [|h t]; [congruence|]. simpl.
    destruct (Ascii.eqb_spec c x); [congruence | reflexivity].
Qed.

Lemma lines_removeAll (text : string) : lines (removeAll "|" text) = lines text.
Proof.
  unfold lines. rewrite split_removeAll by reflexivity. rewrite map_map.
  f_equal. apply map_ext. intros raw. unfold cleanLine. now rewrite removeAll_idempotent.
Qed.

Lemma parse_of_lines (text1 text2 semester year : string) :
  lines text1 = lines text2 ->
  parseResultText text1 semester year = parseResultText text2 semester year.
Proof. intros H. unfold parseResultText. now rewrite H. Qed.

(** X7: pipe characters are invisible to the parser: two texts that
    agree once their pipes are removed, wherever the pipes stood, parse
    to the same outcome. *)
Theorem pipes_are_invisible (text1 text2 semester year : string) :
  removeAll "|" text1 = removeAll "|" text2 ->
  parseResultText text1 semester year = parseResultText text2 semester year.
Proof.
  intros H. apply parse_of_lines.
  rewrite <- (lines_removeAll text1), <- (lines_removeAll text2). now rewrite H.
Qed.

Lemma pipes_are_invisible_witness :
  parseResultText Sheets.bordered "2" "1" =
  parseResultText (removeAll "|" Sheets.bordered) "2" "1".
Proof.
  apply pipes_are_invisible. symmetry. apply removeAll_idempotent.
Defined.

Lemma removeAll_app (x : ascii) (s t : string) :
  removeAll x (s ++ t) = (removeAll x s ++ removeAll x t)%string.
Proof.
  induction s as [|c r IH]; simpl; [reflexivity|].
  destruct (Ascii.eqb c x); simpl; now rewrite IH.
Qed.

Lemma trimEnd_cr (s : string) : trimEnd (s ++ String "013" EmptyString) = trimEnd s.
Proof.
  induction s as [|c r IH]; [reflexivity|].
  change ((String c r ++ String "013" EmptyString)%string)
    with (String c (r ++ String "013" EmptyString)).
  simpl trimEnd. now rewrite IH.
Qed.

Lemma trim_cr (s : string) : trim (s ++ String "013" EmptyString) = trim s.
Proof.
  unfold trim. induction s as [|c r IH]; [reflexivity|].
  change ((String c r ++ String "013" EmptyString)%string)
    with (String c (r ++ String "013" EmptyString)).
  simpl trimStart. destruct (isSpace c); [exact IH|].
  change (String c (r ++ String "013" EmptyString))
    with ((String c r ++ String "013" EmptyString)%string).
  apply trimEnd_cr.
Qed.

Lemma cleanLine_cr (s : string) : cleanLine (s ++ String "013" EmptyString) = cleanLine s.
Proof. unfold cleanLine. rewrite removeAll_app. apply trim_cr. Qed.

Lemma cleaned_crlf (text : string) :
  Forall2 (fun p1 p2 => p1 = p2 \/ p1 = (p2 ++ String "013" EmptyString)%string)
          (split "010" (crlf text)) (split "010" text).
Proof.
  induction text as [|c r IH]; simpl.
  - constructor; [now left | constructor].
  - destruct (Ascii.eqb_spec c "010") as [->|Hc].
    + simpl. constructor; [now right | exact IH].
    + simpl. destruct (Ascii.eqb_spec c "010"); [congruence|].
      inversion IH as [|p1 p2 l1 l2 Hp Hl Hl1 Hl2]; simpl.
      * constructor; [now left | constructor].
      * constructor; [|exact Hl]. destruct Hp as [-> | ->]; [now left | now right].
Qed.

Lemma lines_crlf (text : string) : lines (crlf text) = lines text.
Proof.
  unfold lines. f_equal.
  pose proof (cleaned_crlf text) as H.
  induction H as [|p1 p2 l1 l2 Hp Hl IH]; simpl; [reflexivity|].
  rewrite IH. f_equal. destruct Hp as [-> | ->]; [reflexivity | apply cleanLine_cr].
Qed.

(** X8: line endings of the form carriage return, line feed are read
    like plain line feeds: the carriage return is trimmed off with the
    other white space. *)
Theorem crlf_is_harmless (text semester year : string) :
  parseResultText (crlf text) semester year = parseResultText text semester year.
Proof. apply parse_of_lines, lines_crlf. Qed.

End ParserLaws.

(** * Properties of the request handlers *)

Module HandlerFacts.

Import JS Parser Rows Handlers.

Section UploadFacts.

Variable Store : Type.
Variable insertMany : list SemesterResult -> Store -> Store * option string.

Lemma upload_throws (text semester year : string) (store : Store) (e : ParseError) :
  parseResultText text semester year = Throws e ->
  upload Store insertMany true (inl text) semester year store =
  (ProcessingFailed (message e), store).
Proof. intros H. unfold upload. now rewrite H. Qed.

(** X9: a sheet that does not parse is not saved, not even in part.
    When fewer than two lines are left, or when some data line of seven
    or more columns holds a token outside the grade table, the upload
    answers with the parser's message and hands nothing to the store,
    whatever rows came before the offending one. *)
Theorem upload_saves_nothing_on_parse_error (text semester year : string) (store : Store) :
  List.length (lines text) < 2 \/
  (exists line j, In line (tl (lines text)) /\ validRow line = true /\ 2 <= j < 7 /\
                  ~ In (gradeAt (columnsOf line) j) gradeTokens) ->
  exists e,
    upload Store insertMany true (inl text) semester year store =
      (ProcessingFailed (message e), store) /\
    (List.length (lines text) < 2 -> e = InsufficientData) /\
    (2 <= List.length (lines text) -> exists grade name, e = InvalidGrade grade name).
Proof.
  intros [Hshort|(line & j & Hin & Hv & Hj & Hbad)].
  - exists InsufficientData. split; [|split; [reflexivity | lia]].
    apply upload_throws. unfold parseResultText.
    destruct (Nat.ltb_spec (List.length (lines text)) 2); [reflexivity | lia].
  - assert (Hlen : 2 <= List.length (lines text))
      by (eapply ParserFacts.tl_nonempty_length; eassumption).
    apply ParserLaws.validRow_spec in Hv.
    destruct (ParserFacts.parseRow_rejects (columnsOf (nth 0 (lines text) EmptyString))
                semester year line j Hv Hj (ParserFacts.unknown_grade_falsy _ _ Hbad)) as [e He].
    destruct (ParserFacts.rowLoop_aborts _ semester year _ [] line e Hin He) as [e' He'].
    exists e'. split; [|split; [lia|]].
    + apply upload_throws. now rewrite ParserFacts.parse_unfold.
    + intros _. destruct (ParserFacts.rowLoop_throws _ _ _ _ _ _ He') as (bad & _ & Hrow).
      destruct (ParserFacts.parseRow_throws _ _ _ _ _ Hrow) as (_ & i & _ & _ & ->).
      eauto.
Qed.

(** X10: when the upload answers with a count, the whole sheet parsed:
    the count is the number of data lines with seven or more columns,
    each of them was accepted, and exactly their results, in line
    order, were handed to the store in one call. *)
Theorem upload_count (file : bool) (ocr : string + string) (semester year : string)
    (store store' : Store) (count : nat) :
  upload Store insertMany file ocr semester year store = (Processed count, store') ->
  exists text,
    file = true /\ ocr = inl text /\
    count = List.length (filter validRow (tl (lines text))) /\
    (forall line, In line (tl (lines text)) -> validRow line = true -> rowAccepted line = true) /\
    insertMany (map (rowResult (columnsOf (nth 0 (lines text) EmptyString)) semester year)
                    (filter validRow (tl (lines text)))) store = (store', None).
Proof.
  unfold upload. destruct file; [|discriminate].
  destruct ocr as [text|msg]; [|discriminate].
  destruct (parseResultText text semester year) as [results|e] eqn:E; [|discriminate].
  destruct (ParserLaws.parse_returns_rows _ _ _ _ E) as [Hacc ->].
  destruct (insertMany _ store) as [st [msg|]] eqn:Hins; [discriminate|].
  intros [= <- <-]. exists text. rewrite length_map. repeat split; assumption.
Qed.

End UploadFacts.

(** ** Looking a student up *)

Import Aggregator.

Lemma recordsOf_app (s : string) (a b : list Result) :
  recordsOf s (a ++ b) = recordsOf s a ++ recordsOf s b.
Proof. apply filter_app. Qed.

Lemma recordsOf_nil_iff (s : string) (store : list Result) :
  recordsOf s store = [] <-> forall r, In r store -> indexNo r <> s.
Proof.
  unfold recordsOf. induction store as [|x store IH]; simpl.
  - split; [intros _ r [] | reflexivity].
  - destruct (String.eqb_spec (indexNo x) s) as [Heq|Hne].
    + split; [discriminate | intros H; exfalso; exact (H x (or_introl eq_refl) Heq)].
    + rewrite IH. split.
      * intros H r [<-|Hin]; [exact Hne | now apply H].
      * intros H r Hin. apply H. now right.
Qed.

Lemma recordsOf_indexNo (s : string) (store : list Result) (r : Result) :
  In r (recordsOf s store) -> indexNo r = s.
Proof.
  unfold recordsOf. rewrite filter_In. intros [_ H]. now apply String.eqb_eq.
Qed.

Lemma recordsOf_last (s : string) (store l : list Result) (r : Result) :
  recordsOf s store = l ++ [r] ->
  exists before after, store = before ++ r :: after /\ recordsOf s after = [].
Proof.
  revert l. induction store as [|y store IH] using rev_ind; intros l H.
  - destruct l; discriminate H.
  - rewrite recordsOf_app in H. unfold recordsOf at 2 in H. simpl in H.
    destruct (String.eqb (indexNo y) s) eqn:E.
    + apply app_inj_tail in H. destruct H as [_ ->]. exists store, []. now split.
    + rewrite app_nil_r in H. destruct (IH _ H) as (before & after & -> & Hafter).
      exists before, (after ++ [y]). rewrite <- app_assoc. split; [reflexivity|].
      rewrite recordsOf_app, Hafter. unfold recordsOf. simpl. now rewrite E.
Qed.

(** X11: a lookup answers not found exactly when the store holds no
    document of that index number; otherwise it answers with the one of
    them that was inserted last: a document of the store under that
    index number after which no other one of that student follows. *)
Theorem lookup_finds_latest (s : string) (store : list Result) :
  (lookupStudent s store = StudentNotFound <-> forall r, In r store -> indexNo r <> s) /\
  (forall r, lookupStudent s store = Found r <->
     exists before after,
       store = before ++ r :: after /\ indexNo r = s /\
       forall x, In x after -> indexNo x <> s).
Proof.
  unfold lookupStudent. split.
  - rewrite <- recordsOf_nil_iff.
    destruct (recordsOf s store) as [|x l] eqn:E using rev_ind.
    + simpl. tauto.
    + rewrite rev_app_distr. simpl. split; [discriminate | intros H; destruct l; discriminate H].
  - intros r. split.
    + intros H. destruct (rev (recordsOf s store)) as [|x t] eqn:E; [discriminate H|].
      injection H as ->. apply (f_equal (@rev Result)) in E.
      rewrite rev_involutive in E. simpl in E.
      destruct (recordsOf_last _ _ _ _ E) as (before & after & Hst & Hafter).
      exists before, after. split; [exact Hst|]. split.
      * apply (recordsOf_indexNo s store). rewrite E. apply in_or_app. right. now left.
      * now apply recordsOf_nil_iff.
    + intros (before & after & -> & Hs & Hafter).
      apply recordsOf_nil_iff in Hafter.
      rewrite recordsOf_app. unfold recordsOf at 2. simpl. fold (recordsOf s after).
      rewrite Hafter. apply String.eqb_eq in Hs. rewrite Hs.
      rewrite rev_app_distr. reflexivity.
Qed.

Lemma lookup_finds_latest_witness :
  lookupStudent "20/COM/001" Stores.example = Found (doc "20/COM/001" 2 3.3) /\
  lookupStudent "20/COM/404" Stores.example = StudentNotFound.
Proof.
  split.
  - apply (lookup_finds_latest "20/COM/001" Stores.example).
    exists [doc "20/COM/001" 1 3.0; doc "20/COM/002" 2 2.5; doc "20/COM/001" 1 4.0], [].
    split; [reflexivity|]. split; [reflexivity | intros x []].
  - apply (lookup_finds_latest "20/COM/404" Stores.example).
    intros r Hin. vm_compute in Hin.
    destruct Hin as [<-|[<-|[<-|[<-|[]]]]]; discriminate.
Defined.

(** X12: the last write wins.  After more documents are inserted, a
    lookup answers from the new documents when they hold one of that
    student, and as before otherwise. *)
Theorem lookup_after_insert (s : string) (store more : list Result) :
  lookupStudent s (store ++ more) =
  match lookupStudent s more with
  | Found r => Found r
  | StudentNotFound => lookupStudent s store
  end.
Proof.
  unfold lookupStudent. rewrite recordsOf_app, rev_app_distr.
  destruct (rev (recordsOf s more)); reflexivity.
Qed.

Lemma upload_saves_nothing_on_parse_error_witness :
  exists e,
    upload (list SemesterResult) (fun results store => (store ++ results, None))
      true (inl Sheets.withD) "1" "2" [] = (ProcessingFailed (message e), []) /\
    message e = "Invalid grade 'D' for Bob Poe".
Proof.
  destruct (upload_saves_nothing_on_parse_error (list SemesterResult)
              (fun results store => (store ++ results, None)) Sheets.withD "1" "2" [])
    as (e & Hup & _ & Hgrade).
  - right. exists "20/COM/004  Bob Poe  A  D  B  B  C", 3.
    split; [vm_compute; right; left; reflexivity|]. split; [reflexivity|]. split; [lia|].
    vm_compute. intros H. repeat (destruct H as [H|H]; [discriminate H|]). exact H.
  - exists e. split; [exact Hup|].
    vm_compute in Hup. injection Hup as Hmsg. now rewrite Hmsg.
Defined.

Lemma upload_count_witness :
  exists text,
    @inl string string Sheets.bordered = inl text /\
    1 = List.length (filter validRow (tl (lines text))).
Proof.
  destruct (upload (list SemesterResult) (fun results store => (store ++ results, None))
              true (inl Sheets.bordered) "2" "1" []) as [resp st] eqn:E.
  assert (Hresp : resp = Processed 1) by (vm_compute in E; now injection E as <- _).
  subst resp.
  destruct (upload_count _ _ _ _ _ _ _ _ _ E) as (text & _ & Hocr & Hcount & _).
  exists text. split; [exact Hocr | exact Hcount].
Defined.

End HandlerFacts.

(** * Further properties of the aggregator *)

Module AggregatorLaws.

Import JS Aggregator Years.

(** ** How a run ends *)

Lemma inherited_objectPrototype (k : string) : inherited k = true <-> In k objectPrototype.
Proof.
  unfold inherited. rewrite existsb_exists. split.
  - intros (n & Hin & Heq). apply String.eqb_eq in Heq. now subst.
  - intros Hin. exists k. split; [exact Hin | apply String.eqb_refl].
Qed.

Lemma grouping_throws (store : list Result) :
  groupLoop store [] = None <-> exists r, In r store /\ In (indexNo r) objectPrototype.
Proof.
  pose proof (AggregatorFacts.grouping_completes store) as Hc.
  split.
  - intros Hnone.
    destruct (existsb (fun r => inherited (indexNo r)) store) eqn:E.
    + apply existsb_exists in E. destruct E as (r & Hin & Hr).
      exists r. split; [exact Hin | now apply inherited_objectPrototype].
    + exfalso. revert Hnone. apply (proj2 Hc).
      intros r Hin. destruct (inherited (indexNo r)) eqn:Hr; [|reflexivity].
      rewrite <- E. symmetry. apply existsb_exists. now exists r.
  - intros (r & Hin & Hr). apply inherited_objectPrototype in Hr.
    destruct (groupLoop store []) eqn:E; [|reflexivity].
    assert (Hn : Some l <> None) by discriminate.
    rewrite (proj1 Hc Hn r Hin) in Hr. discriminate Hr.
Qed.

(** X15: how a recalculation ends.  It answers 200 on the empty store
    only.  It throws the TypeError of the grouping exactly when some
    document is filed under the name of a member every object inherits
    ("constructor", "toString", "__proto__" and the like).  On every
    other store the first update is rejected with the CastError of
    [yearGPA].  In all three cases the store is left as it was. *)
Theorem run_answers (store : list Result) :
  snd (recalculateAll store) = store /\
  (fst (recalculateAll store) = Calculated <-> store = []) /\
  (fst (recalculateAll store) = CalculationFailed PushOnUndefined <->
     exists r, In r store /\ In (indexNo r) objectPrototype) /\
  (fst (recalculateAll store) = CalculationFailed YearGPACast <->
     store <> [] /\ forall r, In r store -> ~ In (indexNo r) objectPrototype).
Proof.
  split; [apply AggregatorFacts.run_writes_nothing|].
  rewrite AggregatorFacts.run_answer.
  pose proof (grouping_throws store) as Ht.
  destruct (groupLoop store []) as [students|] eqn:E.
  - assert (Hno : forall r, In r store -> ~ In (indexNo r) objectPrototype).
    { intros r Hin Hr.
      assert (Hn : Some students = None) by (apply Ht; now exists r).
      discriminate Hn. }
    assert (Hnot : ~ exists r, In r store /\ In (indexNo r) objectPrototype).
    { intros (r & Hin & Hr). exact (Hno r Hin Hr). }
    destruct store as [|r store].
    + split; [tauto|]. split; [split; [discriminate | tauto]|].
      split; [discriminate | intros [H _]; now destruct H].
    + split; [split; discriminate|]. split; [split; [discriminate | tauto]|].
      split; [intros _; split; [discriminate | exact Hno] | reflexivity].
  - assert (Hex : exists r, In r store /\ In (indexNo r) objectPrototype) by now apply Ht.
    split; [split; [discriminate | intros ->; destruct Hex as (r & [] & _)]|].
    split; [tauto|].
    split; [discriminate|].
    intros [_ Hno]. destruct Hex as (r & Hin & Hr). destruct (Hno r Hin Hr).
Qed.

Lemma run_answers_witness :
  recalculateAll Stores.example = (CalculationFailed YearGPACast, Stores.example) /\
  fst (recalculateAll Stores.withInherited) = CalculationFailed PushOnUndefined.
Proof.
  destruct (run_answers Stores.example) as (Hsame & _ & _ & Hcast).
  destruct (run_answers Stores.withInherited) as (_ & _ & Hthrow & _).
  split.
  - assert (Hanswer : fst (recalculateAll Stores.example) = CalculationFailed YearGPACast).
    { apply Hcast. split; [discriminate|].
      intros r Hin Hr. vm_compute in Hin.
      destruct Hin as [<-|[<-|[<-|[<-|[]]]]]; vm_compute in Hr;
        repeat (destruct Hr as [Hr|Hr]; [discriminate Hr|]); exact Hr. }
    destruct (recalculateAll Stores.example) as [answer kept].
    cbn [fst snd] in Hanswer, Hsame. now rewrite Hanswer, Hsame.
  - apply Hthrow. exists (doc "constructor" 1 3.5).
    split; [right; left; reflexivity | left; reflexivity].
Defined.

(** ** Grouping by year *)

Lemma lookupYear_None (y : Z) (o : list (Z * list Result)) :
  lookupYear y o = None <-> ~ In y (map fst o).
Proof.
  induction o as [|[y' g] t IH]; simpl; [tauto|].
  destruct (Z.eqb_spec y y') as [->|Hne].
  - split; [discriminate | intros H; exfalso; apply H; now left].
  - rewrite IH. split; [intros H [E|E]; [congruence | tauto] | tauto].
Qed.

Lemma hasYear_lookupYear (y : Z) (o : list (Z * list Result)) :
  hasYear y o = match lookupYear y o with Some _ => true | None => false end.
Proof.
  unfold hasYear. induction o as [|[y' g] t IH]; simpl; [reflexivity|].
  destruct (y =? y')%Z; [reflexivity | exact IH].
Qed.

Lemma In_lookupYear (y : Z) (g : list Result) (o : list (Z * list Result)) :
  NoDup (map fst o) -> (In (y, g) o <-> lookupYear y o = Some g).
Proof.
  induction o as [|[y' g'] t IH]; simpl; intros Hnd.
  - split; [intros [] | discriminate].
  - inversion Hnd as [|? ? Hnot Hnd']; subst.
    destruct (Z.eqb_spec y y') as [->|Hne].
    + split.
      * intros [[= ->]|Hin]; [reflexivity|].
        exfalso. apply Hnot. apply in_map_iff. now exists (y', g).
      * intros [= ->]. now left.
    + rewrite <- (IH Hnd'). split; [intros [[= E _]|Hin]; [congruence | exact Hin] | now right].
Qed.

Lemma pushYear_keys (y : Z) (r : Result) (o : list (Z * list Result)) :
  map fst (pushYear y r o) = map fst o.
Proof.
  induction o as [|[y' g] t IH]; simpl; [reflexivity|].
  destruct (y =? y')%Z; simpl; [reflexivity | now rewrite IH].
Qed.

Lemma lookupYear_pushYear (z y : Z) (r : Result) (o : list (Z * list Result)) :
  lookupYear z (pushYear y r o) =
  if (z =? y)%Z then option_map (fun g => g ++ [r]) (lookupYear y o) else lookupYear z o.
Proof.
  induction o as [|[y' g] t IH]; simpl.
  - destruct (z =? y)%Z; reflexivity.
  - destruct (Z.eqb_spec y y') as [->|Hne]; simpl.
    + destruct (Z.eqb_spec z y'); reflexivity.
    + rewrite IH. destruct (Z.eqb_spec z y') as [->|Hz].
      * destruct (Z.eqb_spec y' y); [congruence | reflexivity].
      * reflexivity.
Qed.

Lemma lookupYear_app_new (z y : Z) (o : list (Z * list Result)) :
  lookupYear y o = None ->
  lookupYear z (o ++ [(y, [])]) = if (z =? y)%Z then Some [] else lookupYear z o.
Proof.
  induction o as [|[y' g] t IH]; simpl; intros Hy.
  - destruct (z =? y)%Z; reflexivity.
  - destruct (Z.eqb_spec y y') as [->|Hne]; [discriminate Hy|].
    destruct (Z.eqb_spec z y') as [->|Hz].
    + destruct (Z.eqb_spec y' y); [congruence | reflexivity].
    + now apply IH.
Qed.

Lemma yearStep_lookup (z : Z) (o : list (Z * list Result)) (r : Result) :
  lookupYear z (yearStep o r) =
  if (year r =? z)%Z then joinGroup (lookupYear z o) [r] else lookupYear z o.
Proof.
  unfold yearStep. rewrite hasYear_lookupYear, (Z.eqb_sym (year r) z).
  destruct (lookupYear (year r) o) as [g|] eqn:E.
  - rewrite lookupYear_pushYear.
    destruct (Z.eqb_spec z (year r)) as [->|Hne]; [now rewrite E | reflexivity].
  - rewrite lookupYear_pushYear, !lookupYear_app_new, Z.eqb_refl by exact E.
    destruct (Z.eqb_spec z (year r)) as [->|Hne]; [now rewrite E | reflexivity].
Qed.

Lemma yearStep_NoDup (o : list (Z * list Result)) (r : Result) :
  NoDup (map fst o) -> NoDup (map fst (yearStep o r)).
Proof.
  intros Hnd. unfold yearStep. rewrite pushYear_keys, hasYear_lookupYear.
  destruct (lookupYear (year r) o) as [g|] eqn:E; [exact Hnd|].
  rewrite map_app. simpl. apply NoDup_app; [exact Hnd | repeat constructor; intros [] |].
  intros y Hy [<-|[]]. now apply lookupYear_None in E.
Qed.

Lemma byYear_lookup (z : Z) (rs : list Result) (o : list (Z * list Result)) :
  lookupYear z (fold_left yearStep rs o) = joinGroup (lookupYear z o) (ofYear z rs).
Proof.
  revert o. induction rs as [|r rs IH]; intros o; simpl; [reflexivity|].
  rewrite IH, yearStep_lookup.
  destruct (year r =? z)%Z; [apply AggregatorFacts.joinGroup_cons | reflexivity].
Qed.

Lemma byYear_NoDup (rs : list Result) (o : list (Z * list Result)) :
  NoDup (map fst o) -> NoDup (map fst (fold_left yearStep rs o)).
Proof.
  revert o. induction rs as [|r rs IH]; intros o Hnd; simpl; [exact Hnd|].
  apply IH, yearStep_NoDup, Hnd.
Qed.

Lemma ofYear_nonempty (y : Z) (rs : list Result) :
  ofYear y rs <> [] <-> exists r, In r rs /\ year r = y.
Proof.
  unfold ofYear. split.
  - destruct (filter _ rs) as [|r l] eqn:E; [congruence|]. intros _.
    assert (Hin : In r (filter (fun r => (year r =? y)%Z) rs)) by (rewrite E; now left).
    apply filter_In in Hin. destruct Hin as [Hin Hy]. exists r. split; [exact Hin | lia].
  - intros (r & Hin & Hy) Habs.
    assert (Hf : In r (filter (fun r => (year r =? y)%Z) rs))
      by (apply filter_In; split; [exact Hin | lia]).
    rewrite Habs in Hf. destruct Hf.
Qed.

(** The groups of [resultsByYear]: under each year the documents of
    that year in store order, and no empty group. *)
Lemma resultsByYear_groups (rs : list Result) (y : Z) (g : list Result) :
  In (y, g) (resultsByYear rs) <-> ofYear y rs = g /\ g <> [].
Proof.
  unfold resultsByYear.
  rewrite (In_lookupYear y g _ (byYear_NoDup rs [] (NoDup_nil _))), byYear_lookup. simpl.
  destruct (ofYear y rs) as [|r l]; split.
  - discriminate.
  - intros [<- H]. congruence.
  - intros [= <-]. split; [reflexivity | discriminate].
  - intros [<- _]. reflexivity.
Qed.

Lemma resultsByYear_keys (rs : list Result) (y : Z) :
  In y (map fst (resultsByYear rs)) <-> exists r, In r rs /\ year r = y.
Proof.
  rewrite <- ofYear_nonempty, in_map_iff. split.
  - intros ([y' g] & Hy & Hin). simpl in Hy. subst y'.
    apply resultsByYear_groups in Hin. destruct Hin as [-> Hne]. exact Hne.
  - intros Hne. exists (y, ofYear y rs). split; [reflexivity|].
    apply resultsByYear_groups. now split.
Qed.

(** ** The order in which years are enumerated *)

Section IndexedOrder.

Context {V : Type}.

Lemma insertIndexed_indices (i x : N) (e : Z * V) (l : list (N * (Z * V))) :
  In x (map fst (insertIndexed i e l)) <-> x = i \/ In x (map fst l).
Proof.
  induction l as [|[j e'] t IH]; simpl.
  - intuition.
  - destruct (i <? j)%N; simpl; [intuition|]. rewrite IH. intuition.
Qed.

Lemma insertIndexed_sorted (i : N) (e : Z * V) (l : list (N * (Z * V))) :
  StronglySorted N.lt (map fst l) -> ~ In i (map fst l) ->
  StronglySorted N.lt (map fst (insertIndexed i e l)).
Proof.
  induction l as [|[j e'] t IH]; simpl; intros Hs Hni.
  - repeat constructor.
  - inversion Hs as [|? ? Hst Hall]; subst.
    destruct (N.ltb_spec i j) as [Hlt|Hge]; simpl.
    + constructor; [exact Hs|]. constructor; [exact Hlt|].
      eapply Forall_impl; [|exact Hall]. intros a Ha. simpl in Ha. lia.
    + constructor.
      * apply IH; [exact Hst | intros H; apply Hni; now right].
      * apply Forall_forall. intros x Hx. apply insertIndexed_indices in Hx.
        destruct Hx as [->|Hx]; [|exact (proj1 (Forall_forall _ _) Hall x Hx)].
        assert (i <> j) by (intros ->; apply Hni; now left). lia.
Qed.

Lemma insertIndexed_Forall (P : N * (Z * V) -> Prop) (i : N) (e : Z * V)
    (l : list (N * (Z * V))) :
  P (i, e) -> Forall P l -> Forall P (insertIndexed i e l).
Proof.
  intros Hp Hl. induction Hl as [|[j e'] t Hj Ht IH]; simpl.
  - now repeat constructor.
  - destruct (i <? j)%N; [now repeat constructor | now constructor].
Qed.

Lemma numberIndex_Some (y : Z) (i : N) : numberIndex y = Some i -> y = Z.of_N i.
Proof.
  unfold numberIndex. destruct ((0 <=? y)%Z && (y <? Z.of_N maxIndex)%Z) eqn:E; [|discriminate].
  intros [= <-]. apply andb_true_iff in E. destruct E as [E _]. lia.
Qed.

Lemma indexedEntries_keys (o : list (Z * V)) :
  Forall (fun p => fst (snd p) = Z.of_N (fst p)) (indexedEntries numberIndex o).
Proof.
  induction o as [|e t IH]; simpl; [constructor|].
  destruct (numberIndex (fst e)) as [i|] eqn:E; [|exact IH].
  apply insertIndexed_Forall; [|exact IH]. simpl. now apply numberIndex_Some.
Qed.

Lemma indexedEntries_sorted (o : list (Z * V)) :
  NoDup (map fst o) -> StronglySorted N.lt (map fst (indexedEntries numberIndex o)).
Proof.
  induction o as [|e t IH]; simpl; intros Hnd; [constructor|].
  inversion Hnd as [|? ? Hnot Hnd']; subst.
  destruct (numberIndex (fst e)) as [i|] eqn:E; [|auto].
  apply insertIndexed_sorted; [auto|].
  intros Hin. apply Hnot. apply numberIndex_Some in E. rewrite E.
  apply in_map_iff in Hin. destruct Hin as ([j e'] & Hj & Hin). simpl in Hj. subst j.
  pose proof (proj1 (Forall_forall _ _) (indexedEntries_keys t) _ Hin) as Hk. simpl in Hk.
  rewrite <- Hk. apply in_map. apply (in_map snd) in Hin. simpl in Hin.
  now apply (AggregatorFacts.indexedEntries_In numberIndex) in Hin.
Qed.

Lemma sorted_of_N (l : list N) :
  StronglySorted N.lt l -> StronglySorted Z.lt (map Z.of_N l).
Proof.
  induction 1 as [|a l Hs IH Hall]; simpl; constructor; [exact IH|].
  apply Forall_map. eapply Forall_impl; [|exact Hall]. intros b Hb. simpl. lia.
Qed.

(** With array-index keys only, the enumeration is by ascending key. *)
Lemma entries_sorted (o : list (Z * V)) :
  NoDup (map fst o) ->
  (forall y, In y (map fst o) -> indexYear y = true) ->
  StronglySorted Z.lt (map fst (entries numberIndex o)).
Proof.
  intros Hnd Hidx. unfold entries, namedEntries.
  assert (Hnone : filter (fun e : Z * V =>
                    match numberIndex (fst e) with Some _ => false | None => true end) o = []).
  { clear Hnd. induction o as [|e t IH]; simpl; [reflexivity|].
    assert (He : indexYear (fst e) = true) by (apply Hidx; now left).
    unfold numberIndex. unfold indexYear in He. rewrite He.
    apply IH. intros y Hy. apply Hidx. now right. }
  rewrite Hnone, app_nil_r.
  assert (Hk : map fst (map snd (indexedEntries numberIndex o)) =
               map Z.of_N (map fst (indexedEntries numberIndex o))).
  { pose proof (indexedEntries_keys o) as Hf.
    induction Hf as [|p l Hp Hl IH]; simpl; [reflexivity|]. now rewrite Hp, IH. }
  rewrite Hk. apply sorted_of_N, indexedEntries_sorted, Hnd.
Qed.

Lemma sorted_unique (l1 l2 : list (Z * V)) :
  StronglySorted Z.lt (map fst l1) -> StronglySorted Z.lt (map fst l2) ->
  (forall e, In e l1 <-> In e l2) -> l1 = l2.
Proof.
  revert l2. induction l1 as [|a t1 IH]; intros l2 H1 H2 Hsame.
  - destruct l2 as [|b t2]; [reflexivity|]. destruct (proj2 (Hsame b) (or_introl eq_refl)).
  - destruct l2 as [|b t2]; [destruct (proj1 (Hsame a) (or_introl eq_refl))|].
    simpl in H1, H2.
    inversion H1 as [|? ? Hs1 Ha]; subst. inversion H2 as [|? ? Hs2 Hb]; subst.
    assert (Hlt1 : forall e, In e t1 -> (fst a < fst e)%Z).
    { intros e He. apply (proj1 (Forall_forall _ _) Ha). now apply in_map. }
    assert (Hlt2 : forall e, In e t2 -> (fst b < fst e)%Z).
    { intros e He. apply (proj1 (Forall_forall _ _) Hb). now apply in_map. }
    assert (Hab : a = b).
    { destruct (proj1 (Hsame a) (or_introl eq_refl)) as [E|Hin]; [now symmetry|].
      destruct (proj2 (Hsame b) (or_introl eq_refl)) as [E|Hin']; [exact E|].
      specialize (Hlt1 _ Hin'). specialize (Hlt2 _ Hin). lia. }
    subst b. f_equal. apply IH; [exact Hs1 | exact Hs2 |].
    intros e. split; intros He.
    + destruct (proj1 (Hsame e) (or_intror He)) as [E|Hin]; [|exact Hin].
      subst e. specialize (Hlt1 _ He). lia.
    + destruct (proj2 (Hsame e) (or_intror He)) as [E|Hin]; [|exact Hin].
      subst e. specialize (Hlt2 _ He). lia.
Qed.

End IndexedOrder.

Lemma resultsByYear_NoDup (rs : list Result) : NoDup (map fst (resultsByYear rs)).
Proof. apply byYear_NoDup. constructor. Qed.

(** X16: the stored year values list exactly the years in which the
    student has a document, each once; and when those years are array
    indices, as 1, 2 and 3 are, they come in ascending order of the
    year, whatever the order of the documents. *)
Theorem year_values_ascending (rs : list Result) :
  (forall y, In y (map fst (yearGPA (studentAggregate rs))) <->
             exists r, In r rs /\ year r = y) /\
  ((forall r, In r rs -> indexYear (year r) = true) ->
   StronglySorted Z.lt (map fst (yearGPA (studentAggregate rs)))).
Proof.
  destruct (AggregatorFacts.studentAggregate_fields rs) as (_ & _ & Hkeys & _).
  rewrite Hkeys. split.
  - intros y. rewrite <- resultsByYear_keys, !in_map_iff. split.
    + intros (e & He & Hin). exists e. split; [exact He|].
      exact (proj1 (AggregatorFacts.entries_In numberIndex e _) Hin).
    + intros (e & He & Hin). exists e. split; [exact He|].
      exact (proj2 (AggregatorFacts.entries_In numberIndex e _) Hin).
  - intros Hidx. apply entries_sorted; [apply resultsByYear_NoDup|].
    intros y Hy. apply resultsByYear_keys in Hy. destruct Hy as (r & Hin & <-). now apply Hidx.
Qed.

Lemma year_values_ascending_witness :
  StronglySorted Z.lt
    (map fst (yearGPA (studentAggregate [doc "a" 3 2.0; doc "a" 1 3.0; doc "a" 2 4.0; doc "a" 1 3.5]))).
Proof.
  apply year_values_ascending.
  intros r Hin. destruct Hin as [<-|[<-|[<-|[<-|[]]]]]; reflexivity.
Defined.

(** ** Documents of different years *)

Lemma ofYear_map (h : Result -> Result) (y : Z) (rs : list Result) :
  (forall r, year (h r) = year r) -> ofYear y (map h rs) = map h (ofYear y rs).
Proof.
  intros Hh. unfold ofYear. induction rs as [|r rs IH]; simpl; [reflexivity|].
  rewrite Hh. destruct (year r =? y)%Z; simpl; now rewrite IH.
Qed.

Lemma entries_by_year (rs1 rs2 : list Result) :
  (forall r, In r rs1 -> indexYear (year r) = true) ->
  (forall r, In r rs2 -> indexYear (year r) = true) ->
  (forall y, ofYear y rs1 = ofYear y rs2) ->
  entries numberIndex (resultsByYear rs1) = entries numberIndex (resultsByYear rs2).
Proof.
  intros H1 H2 Hsame. apply sorted_unique.
  - apply entries_sorted; [apply resultsByYear_NoDup|].
    intros y Hy. apply resultsByYear_keys in Hy. destruct Hy as (r & Hin & <-). now apply H1.
  - apply entries_sorted; [apply resultsByYear_NoDup|].
    intros y Hy. apply resultsByYear_keys in Hy. destruct Hy as (r & Hin & <-). now apply H2.
  - intros [y g]. rewrite !(AggregatorFacts.entries_In numberIndex), !resultsByYear_groups.
    now rewrite Hsame.
Qed.

(** X17: how the documents of different years are interleaved in the
    store does not matter.  When the years are array indices, two
    sequences of documents that show, year by year, the same sequence
    of semester GPAs have the same aggregate: uploading the second year
    before the first changes nothing. *)
Theorem year_interleaving_is_irrelevant (rs1 rs2 : list Result) :
  (forall r, In r rs1 -> indexYear (year r) = true) ->
  (forall y, map gpaPair (ofYear y rs1) = map gpaPair (ofYear y rs2)) ->
  studentAggregate rs1 = studentAggregate rs2.
Proof.
  intros H1 Hsame.
  assert (H2 : forall r, In r rs2 -> indexYear (year r) = true).
  { intros r Hin.
    assert (Hne : ofYear (year r) rs1 <> []).
    { intros Habs. specialize (Hsame (year r)). rewrite Habs in Hsame. simpl in Hsame.
      assert (Hr : ofYear (year r) rs2 <> []) by (apply ofYear_nonempty; now exists r).
      destruct (ofYear (year r) rs2); [congruence | discriminate Hsame]. }
    apply ofYear_nonempty in Hne. destruct Hne as (r1 & Hin1 & Hy). rewrite <- Hy. now apply H1. }
  set (b := fun r => bare (gpaPair r)).
  rewrite <- (AggregatorFacts.studentAggregate_map b (fun _ => eq_refl) (fun _ => eq_refl) rs1).
  rewrite <- (AggregatorFacts.studentAggregate_map b (fun _ => eq_refl) (fun _ => eq_refl) rs2).
  unfold studentAggregate. rewrite (entries_by_year (map b rs1) (map b rs2)); [reflexivity | | |].
  - intros r Hin. apply in_map_iff in Hin. destruct Hin as (r0 & <- & Hin). exact (H1 r0 Hin).
  - intros r Hin. apply in_map_iff in Hin. destruct Hin as (r0 & <- & Hin). exact (H2 r0 Hin).
  - intros y. rewrite !ofYear_map by reflexivity.
    subst b. rewrite <- !(map_map gpaPair bare). now rewrite Hsame.
Qed.

Lemma year_interleaving_is_irrelevant_witness :
  studentAggregate [doc "a" 1 3.0; doc "a" 2 3.3; doc "a" 1 4.0] =
  studentAggregate [doc "a" 2 3.3; doc "a" 1 3.0; doc "a" 1 4.0].
Proof.
  apply year_interleaving_is_irrelevant.
  - intros r Hin. destruct Hin as [<-|[<-|[<-|[]]]]; reflexivity.
  - intros y. unfold ofYear. cbn -[Z.eqb].
    destruct (Z.eqb_spec 1 y), (Z.eqb_spec 2 y); try reflexivity; lia.
Defined.

End AggregatorLaws.
